(** * Demand forecasting: preprocessing and utility transforms

    A shallow embedding of [modules/preprocessing.py] and [modules/utils.py].

    Tables (pandas DataFrames) are lists of row records in row order; a
    nullable cell is an [option] ([None] is NaN / NaT / None).  A grouped
    Series ([groupby(...).size()], [.sum()], [.min()], a [dict]) is a finite
    map from the group key to the aggregate.  Timestamps are integers:
    nanoseconds since 1970-01-01T00:00.  Column values that pandas holds as
    float64 are exact rationals here (rounding is not modelled), except
    the per-bin purchase-rate table, which is also given with the float64
    values it stores. *)

From Stdlib Require Import ZArith QArith Lia Lqa Ascii String List DecimalString DecimalZ.
From Stdlib Require PrimFloat Uint63 FloatOps SpecFloat.
From stdpp Require Import gmap strings list fin_maps sorting.

Local Open Scope Z_scope.

(** ** Timestamps and calendar arithmetic *)

Module Calendar.

Definition Timestamp := Z.

Definition ns_per_day : Z := 86400000000000.

(** Day number (days since the epoch) of a timestamp: [Timestamp.normalize]. *)
Definition day_of (t : Timestamp) : Z := t / ns_per_day.

Definition of_day (d : Z) : Timestamp := d * ns_per_day.

(** [Timestamp.weekday()]: Monday is 0 and Sunday is 6; day 0 was a Thursday. *)
Definition weekday (d : Z) : Z := (d + 3) mod 7.

(** Weekly periods ([to_period('W')], i.e. W-SUN) run from Monday to Sunday. *)
Definition week_start_day (d : Z) : Z := d - weekday d.
Definition week_end_day (d : Z) : Z := week_start_day d + 6.

Definition is_leap (y : Z) : bool :=
  ((y mod 4 =? 0) && negb (y mod 100 =? 0)) || (y mod 400 =? 0).

Definition days_in_month (y m : Z) : Z :=
  if m =? 2 then (if is_leap y then 29 else 28)
  else if (m =? 4) || (m =? 6) || (m =? 9) || (m =? 11) then 30
  else 31.

(** Day number of the proleptic Gregorian date [y]-[m]-[d]. *)
Definition days_from_civil (y m d : Z) : Z :=
  let y' := if m <=? 2 then y - 1 else y in
  let era := y' / 400 in
  let yoe := y' - era * 400 in
  let mp := (m + 9) mod 12 in
  let doy := (153 * mp + 2) / 5 + d - 1 in
  let doe := yoe * 365 + yoe / 4 - yoe / 100 + doy in
  era * 146097 + doe - 719468.

Definition digit_of (c : ascii) : option Z :=
  let n := Z.of_nat (nat_of_ascii c) in
  if (48 <=? n) && (n <=? 57) then Some (n - 48) else None.

Fixpoint digits_value (acc : Z) (cs : list ascii) : option Z :=
  match cs with
  | [] => Some acc
  | c :: cs' =>
      match digit_of c with
      | Some v => digits_value (10 * acc + v) cs'
      | None => None
      end
  end.

Definition dash : ascii := "-"%char.

(** The date strings of the data set have the form YYYY-MM-DD; any other
    text makes [pd.to_datetime] fail here. *)
Definition parse_iso_date (s : string) : option Timestamp :=
  match list_ascii_of_string s with
  | [y1; y2; y3; y4; s1; m1; m2; s2; d1; d2] =>
      if negb (Ascii.eqb s1 dash && Ascii.eqb s2 dash) then None else
      match digits_value 0 [y1; y2; y3; y4],
            digits_value 0 [m1; m2],
            digits_value 0 [d1; d2] with
      | Some y, Some m, Some d =>
          if (1 <=? m) && (m <=? 12) && (1 <=? d) && (d <=? days_in_month y m)
          then Some (of_day (days_from_civil y m d))
          else None
      | _, _, _ => None
      end
  | _ => None
  end.

(** A cell of a date column: text as read from the file, or a timestamp
    once the column has been converted. *)
Inductive DateCell :=
| DateStr (s : string)
| DateTs (t : Timestamp).

(** [pd.to_datetime] on one cell; [None] stands for the raised error. *)
Definition to_datetime (c : DateCell) : option Timestamp :=
  match c with
  | DateStr s => parse_iso_date s
  | DateTs t => Some t
  end.

End Calendar.
Export Calendar.

(** ** Tables *)

Module Transactions.

Record Transaction := mkTransaction {
t_dat : DateCell;
customer_id : Z;
article_id : Z
}.

Definition set_t_dat (t : Timestamp) (r : Transaction) : Transaction :=
{| t_dat := DateTs t; customer_id := customer_id r; article_id := article_id r |}.

(** [df['t_dat'] = pd.to_datetime(df['t_dat'])]: the whole column converts
  or the call raises. *)
Definition convert_t_dat (df : list Transaction) : option (list Transaction) :=
mapM (fun r => t ← to_datetime (t_dat r); Some (set_t_dat t r)) df.

(** Timestamp of a row whose date cell is already converted. *)
Definition ts (r : Transaction) : Timestamp :=
match t_dat r with
| DateTs t => t
| DateStr _ => 0
end.

End Transactions.
Export Transactions.

(** ** Generic table operations *)

Section Frames.
Context {K : Type} `{Countable K}.

(** A map defined on the listed keys: [k ↦ f k]. *)
Definition map_of_keys {V} (f : K → V) (ks : list K) : gmap K V :=
  list_to_map ((fun k => (k, f k)) <$> ks).

(** [df.groupby(key)[val].agg(f)] for an associative reduction [f]
    (size, sum, min, max).  Rows whose key is missing are left out
    (dropna=True). *)
Definition groupby_reduce {A V} (f : V → V → V) (key : A → option K)
    (val : A → V) (df : list A) : gmap K V :=
  foldr (fun r m =>
           match key r with
           | Some k => <[k := match m !! k with Some v => f (val r) v | None => val r end]> m
           | None => m
           end) ∅ df.

Definition groupby_size {A} (key : A → option K) (df : list A) : gmap K nat :=
  groupby_reduce Nat.add key (fun _ => 1%nat) df.

(** [left.merge(right, on=key, how='left')]: every left row, in order,
    paired with each matching right row, or with nothing when none matches. *)
Definition merge_left {A B} (kl : A → K) (kr : B → K)
    (left : list A) (right : list B) : list (A * option B) :=
  left ≫= (fun a =>
    match filter (fun b => kr b = kl a) right with
    | [] => [(a, None)]
    | bs => (fun b => (a, Some b)) <$> bs
    end).

(** Left merge with a grouped table, whose keys are unique. *)
Definition merge_grouped {A V} (kl : A → K) (left : list A) (right : gmap K V)
    : list (A * option V) :=
  (fun a => (a, right !! kl a)) <$> left.
End Frames.

(** Reduction of a list with [f], as the group lookups compute it. *)
Fixpoint reduce {V} (f : V → V → V) (l : list V) : option V :=
  match l with
  | [] => None
  | x :: l' => Some (match reduce f l' with Some v => f x v | None => x end)
  end.

(** [Series.fillna(value)], where [value] may itself be NaN. *)
Definition fillna {A} (value : option A) (x : option A) : option A :=
  match x with
  | Some _ => x
  | None => value
  end.

(** ** weekly_aggregation *)

Module Weekly.

Record Row := mkRow {
  base : Transaction;
  week : Timestamp;
  weekly_transactions : option Z
}.

(** Label of the resampling bin of a timestamp: [resample('W')] closes
    and labels its bins on the right, at the Sunday that ends the week. *)
Definition bin_label (t : Timestamp) : Timestamp :=
  of_day (week_end_day (day_of t)).

(** [dt.to_period('W').dt.to_timestamp()]: the start of the period, a Monday. *)
Definition week_of (t : Timestamp) : Timestamp :=
  of_day (week_start_day (day_of t)).

Definition list_min (x : Z) (l : list Z) : Z := foldr Z.min x l.
Definition list_max (x : Z) (l : list Z) : Z := foldr Z.max x l.

(** The bin labels: every Sunday from the week of the earliest row to the
    week of the latest one, weeks without rows included. *)
Definition bin_labels (stamps : list Timestamp) : list Timestamp :=
  match stamps with
  | [] => []
  | t :: rest =>
      let lo := week_end_day (day_of (list_min t rest)) in
      let hi := week_end_day (day_of (list_max t rest)) in
      (fun i => of_day (lo + 7 * i)) <$> seqZ 0 ((hi - lo) / 7 + 1)
  end.

(** [transactions.resample('W', on='t_dat').size()] *)
Definition resample_size (df : list Transaction) : gmap Z Z :=
  let stamps := ts <$> df in
  map_of_keys
    (fun l => Z.of_nat (length (filter (fun t => bin_label t = l) stamps)))
    (bin_labels stamps).

Definition weekly_aggregation (transactions : list Transaction) : option (list Row) :=
  df ← convert_t_dat transactions;
  let weekly_data := resample_size df in
  let weeks := (fun r => week_of (ts r)) <$> df in
  let weekly_data_map := weekly_data in
  Some (zip_with (fun r w => mkRow r w (weekly_data_map !! w)) df weeks).

End Weekly.

(** ** Customers: handle_missing_values and create_age_bins *)

#[global] Instance Qle_dec : RelDecision Qle.
Proof. intros x y. unfold Qle. apply Z_le_dec. Defined.

Module Customers.

Record Customer := mkCustomer {
  customer_id : Z;
  FN : option Q;
  Active : option Q;
  fashion_news_frequency : option string;
  age : option Q;
  club_member_status : option string
}.

(** [Series.median()]: missing values are skipped; NaN when none is left. *)
Definition median (col : list (option Q)) : option Q :=
  let vs := merge_sort Qle (omap id col) in
  let n := length vs in
  if (n =? 0)%nat then None
  else if Nat.odd n then vs !! (n / 2)%nat
  else a ← vs !! (n / 2 - 1)%nat; b ← vs !! (n / 2)%nat; Some ((a + b) / 2)%Q.

Definition fill_club_member_status (row : Customer) : option string :=
  match club_member_status row with
  | None =>
      if decide (fashion_news_frequency row = Some "Regularly"%string)
      then Some "ACTIVE"%string
      else Some "NON-ACTIVE"%string
  | Some s => Some s
  end.

Definition handle_missing_values (customers : list Customer) : list Customer :=
  let c1 := (fun r => mkCustomer (customer_id r) (fillna (Some 0%Q) (FN r)) (Active r)
               (fashion_news_frequency r) (age r) (club_member_status r)) <$> customers in
  let c2 := (fun r => mkCustomer (customer_id r) (FN r) (fillna (Some 0%Q) (Active r))
               (fashion_news_frequency r) (age r) (club_member_status r)) <$> c1 in
  let c3 := (fun r => mkCustomer (customer_id r) (FN r) (Active r)
               (fillna (Some "None"%string) (fashion_news_frequency r))
               (age r) (club_member_status r)) <$> c2 in
  let med := median (age <$> c3) in
  let c4 := (fun r => mkCustomer (customer_id r) (FN r) (Active r)
               (fashion_news_frequency r) (fillna med (age r))
               (club_member_status r)) <$> c3 in
  (fun r => mkCustomer (customer_id r) (FN r) (Active r)
     (fashion_news_frequency r) (age r) (fill_club_member_status r)) <$> c4.

(** The categories of the [age_bin] column, in category order. *)
Inductive AgeBin := B10_19 | B20_29 | B30_39 | B40_49 | B50_59 | B60_plus.

Definition age_label (b : AgeBin) : string :=
  match b with
  | B10_19 => "10-19" | B20_29 => "20-29" | B30_39 => "30-39"
  | B40_49 => "40-49" | B50_59 => "50-59" | B60_plus => "60+"
  end.

Definition age_bins : list Q := [10; 19; 29; 39; 49; 59; 69]%Q.
Definition age_labels : list AgeBin :=
  [B10_19; B20_29; B30_39; B40_49; B50_59; B60_plus].

(** [pd.cut(x, bins, labels, right=False)]: the label of the interval
    [bins[i] <= x < bins[i+1]]; NaN outside the edges. *)
Fixpoint cut {L} (bins : list Q) (labels : list L) (x : Q) : option L :=
  match bins, labels with
  | lo :: ((hi :: _) as rest), l :: ls =>
      if Qle_bool lo x && negb (Qle_bool hi x) then Some l else cut rest ls x
  | _, _ => None
  end.

Record Binned := mkBinned {
  cust : Customer;
  adjusted_age : option Q;
  age_bin : option AgeBin
}.

Definition Qlt_bool (x y : Q) : bool := negb (Qle_bool y x).

Definition create_age_bins_row (r : Customer) : Binned :=
  let adjusted := age r in
  let adjusted :=
    match age r with
    | Some a => if Qlt_bool a 20 then Some 10%Q else adjusted
    | None => adjusted
    end in
  let adjusted :=
    match age r with
    | Some a => if Qle_bool 60 a then Some 60%Q else adjusted
    | None => adjusted
    end in
  let bin := adjusted ≫= cut age_bins age_labels in
  let bin :=
    match adjusted with
    | Some a => if Qeq_bool a 10 then Some B10_19 else bin
    | None => bin
    end in
  let bin :=
    match adjusted with
    | Some a => if Qeq_bool a 60 then Some B60_plus else bin
    | None => bin
    end in
  mkBinned r adjusted bin.

Definition create_age_bins (customers : list Customer) : list Binned :=
  create_age_bins_row <$> customers.

#[global] Instance AgeBin_eq_dec : EqDecision AgeBin.
Proof. solve_decision. Defined.

Definition AgeBin_code (b : AgeBin) : nat :=
  match b with
  | B10_19 => 0 | B20_29 => 1 | B30_39 => 2
  | B40_49 => 3 | B50_59 => 4 | B60_plus => 5
  end%nat.

#[global] Instance AgeBin_countable : Countable AgeBin.
Proof.
  refine (inj_countable' AgeBin_code (fun n => default B60_plus (age_labels !! n)) _).
  intros []; reflexivity.
Defined.

(** None of the five normalised columns is missing on the row. *)
Definition no_missing (r : Customer) : Prop :=
  is_Some (FN r) ∧ is_Some (Active r) ∧ is_Some (fashion_news_frequency r)
  ∧ is_Some (age r) ∧ is_Some (club_member_status r).

(** A customer of which only the key and the age are known. *)
Definition aged (id : Z) (a : option Q) : Customer :=
  mkCustomer id None None None a None.

(** The number of the edges 20, 29, 39, 49 and 59 that an age has reached. *)
Definition edges_reached (a : Q) : nat :=
  length (filter (fun e => Qle_bool e a = true) [20; 29; 39; 49; 59]%Q).

End Customers.

(** ** Articles: group_articles *)

Module Articles.

Record Article := mkArticle {
  article_id : Z;
  product_type_name : string;
  colour_group_name : string;
  graphical_appearance_name : string
}.

Record Grouped := mkGrouped {
  art : Article;
  article_count : option nat
}.

Definition group_key (a : Article) : string * string * string :=
  (product_type_name a, colour_group_name a, graphical_appearance_name a).

Definition group_articles (articles : list Article) : list Grouped :=
  let grouped_articles := groupby_size (fun a => Some (group_key a)) articles in
  (fun p => mkGrouped p.1 p.2) <$> merge_grouped group_key articles grouped_articles.

End Articles.

(** ** purchase_rate_per_article_per_age *)

Module PurchaseRate.
Import Customers.

Record Row := mkRow {
  base : Transaction;
  purchase_rate : option Q
}.

Definition Qsum (l : list Q) : Q := foldr Qplus 0%Q l.

(** [Series.mean()]: missing values are skipped; NaN when none is left. *)
Definition mean (col : list (option Q)) : option Q :=
  match omap id col with
  | [] => None
  | vs => Some (Qsum vs / inject_Z (Z.of_nat (length vs)))%Q
  end.

(** The bin of a merged row: missing when no customer matched or when the
    matched customer has no bin. *)
Definition row_bin (r : Transaction * option Binned) : option AgeBin :=
  r.2 ≫= age_bin.

Definition temp_key (r : Transaction * option Binned) : option (Z * AgeBin) :=
  b ← row_bin r; Some (Transactions.article_id r.1, b).

(** The result index of the size over a categorical key.  With
    [observed=False] (the default before pandas 3.0) every category is
    listed for every article, at size 0 when it has no row; with
    [observed=True] (the default from pandas 3.0) only the groups that
    have rows are. *)
Definition reindex_output (observed : bool) (articles : list Z)
    (sizes : gmap (Z * AgeBin) nat) : gmap (Z * AgeBin) nat :=
  if observed then sizes
  else map_of_keys (fun k => default 0%nat (sizes !! k))
         (a ← articles; (fun b => (a, b)) <$> age_labels).

(** [sizes.div(totals, level=0)]: every entry divided by the total of its
    article, as an exact rational; [div_level0_float64] below has the
    rounded values. *)
Definition div_level0 (sizes : gmap (Z * AgeBin) nat) (totals : gmap Z nat)
    : gmap (Z * AgeBin) (option Q) :=
  map_imap (fun k c =>
    Some (match totals !! k.1 with
          | Some n => Some (inject_Z (Z.of_nat c) / inject_Z (Z.of_nat n))%Q
          | None => None
          end)) sizes.

(** The rows of one article in the per-bin table, in category order. *)
Definition article_rates (rates : gmap (Z * AgeBin) (option Q)) (a : Z)
    : list (option Q) :=
  omap (fun b => rates !! (a, b)) age_labels.

(** [purchase_rate.groupby('article_id')['purchase_rate'].mean()] *)
Definition mean_per_article (rates : gmap (Z * AgeBin) (option Q)) : gmap Z (option Q) :=
  map_of_keys (fun a => mean (article_rates rates a))
    ((fun e => e.1.1) <$> map_to_list rates).

(** [transactions.merge(customers[['customer_id', 'age_bin']], on='customer_id', how='left')] *)
Definition temp_data (transactions : list Transaction) (customers : list Binned)
    : list (Transaction * option Binned) :=
  merge_left Transactions.customer_id (fun c => Customers.customer_id (cust c))
    transactions customers.

(** The per-(article, bin) table: the group sizes divided by the sizes
    of the articles. *)
Definition purchase_rate_table (observed : bool)
    (temp_data : list (Transaction * option Binned)) : gmap (Z * AgeBin) (option Q) :=
  let sizes :=
    reindex_output observed ((fun r => Transactions.article_id r.1) <$> temp_data)
      (groupby_size temp_key temp_data) in
  let totals := groupby_size (fun r => Some (Transactions.article_id r.1)) temp_data in
  div_level0 sizes totals.

Definition purchase_rate_per_article_per_age (observed : bool)
    (transactions : list Transaction) (customers : list Binned) : list Row :=
  let temp_data := temp_data transactions customers in
  let purchase_rate := purchase_rate_table observed temp_data in
  let purchase_rate_summary := mean_per_article purchase_rate in
  (fun p => mkRow p.1 (mjoin p.2))
    <$> merge_grouped Transactions.article_id transactions purchase_rate_summary.

(** *** Counts read off the merged table *)

(** Rows of article [a] whose bin is [b]; all rows of article [a]; rows
    of article [a] that have a bin. *)
Definition bin_count (temp : list (Transaction * option Binned)) (a : Z) (b : AgeBin) : nat :=
  length (filter (fun r => Transactions.article_id r.1 = a ∧ row_bin r = Some b) temp).
Definition article_total (temp : list (Transaction * option Binned)) (a : Z) : nat :=
  length (filter (fun r => Transactions.article_id r.1 = a) temp).
Definition binned_total (temp : list (Transaction * option Binned)) (a : Z) : nat :=
  length (filter (fun r => Transactions.article_id r.1 = a ∧ is_Some (row_bin r)) temp).
Definition unbinned_total (temp : list (Transaction * option Binned)) (a : Z) : nat :=
  length (filter (fun r => Transactions.article_id r.1 = a ∧ row_bin r = None) temp).

Definition fraction (temp : list (Transaction * option Binned)) (a : Z) (c : nat) : Q :=
  (inject_Z (Z.of_nat c) / inject_Z (Z.of_nat (article_total temp a)))%Q.

(** The bins that get a row for article [a] in the per-bin table. *)
Definition grouped_bins (observed : bool) (temp : list (Transaction * option Binned))
    (a : Z) : list AgeBin :=
  filter (fun b => observed = false ∨ bin_count temp a b ≠ 0%nat) age_labels.

(** The uniform mean over [bins] of the fraction of the rows of article
    [a] that fall in the bin. *)
Definition mean_fraction (temp : list (Transaction * option Binned)) (a : Z)
    (bins : list AgeBin) : option Q :=
  match bins with
  | [] => None
  | _ => Some (Qsum ((fun b => fraction temp a (bin_count temp a b)) <$> bins)
               / inject_Z (Z.of_nat (length bins)))%Q
  end.

(** The rate as the specification words it: the uniform mean over the
    buckets observed for the article, the missing bin counting as a
    bucket of its own. *)
Definition spec_purchase_rate (temp : list (Transaction * option Binned)) (a : Z) : option Q :=
  let observed_bins :=
    (fun b => bin_count temp a b) <$> filter (fun b => bin_count temp a b ≠ 0%nat) age_labels in
  let buckets :=
    if decide (unbinned_total temp a = 0%nat) then observed_bins
    else observed_bins ++ [unbinned_total temp a] in
  match buckets with
  | [] => None
  | _ => Some (Qsum (fraction temp a <$> buckets) / inject_Z (Z.of_nat (length buckets)))%Q
  end.

(** Equality of two nullable rates, as rational numbers. *)
Definition Qopt_eq (x y : option Q) : Prop :=
  match x, y with
  | Some p, Some q => (p == q)%Q
  | None, None => True
  | _, _ => False
  end.

(** A customer of which only the key and the bin are known. *)
Definition binned (id : Z) (b : AgeBin) : Binned :=
  mkBinned (aged id None) None (Some b).

(** *** The per-bin table as float64 *)










End PurchaseRate.

(** ** calculate_elapsed_days *)

Module Elapsed.

Record Row := mkRow {
  base : Transaction;
  elapsed_days_since_last_purchase : option Z;
  elapsed_days_since_first_sell : option Z
}.

(** [(reference_date - t).days]: whole days, rounded down. *)
Definition days_between (reference_date t : Timestamp) : Z :=
  (reference_date - t) / ns_per_day.

(** The call converts the date column of the caller's table in place and
    returns a new table; the result is the pair of both.  [today] is the
    clock reading used when no reference date is given. *)
Definition calculate_elapsed_days (today : Timestamp) (data : list Transaction)
    (reference_date : option Timestamp)
    : option (list Transaction * list Row) :=
  data ← convert_t_dat data;
  let reference_date := default today reference_date in
  let last_purchase := groupby_reduce Z.max (fun r => Some (customer_id r)) ts data in
  let last_purchase := days_between reference_date <$> last_purchase in
  let data1 := merge_grouped customer_id data last_purchase in
  let first_sell := groupby_reduce Z.min (fun r => Some (article_id r.1)) (fun r => ts r.1) data1 in
  let first_sell := days_between reference_date <$> first_sell in
  let data2 := merge_grouped (fun r => article_id r.1) data1 first_sell in
  Some (data, (fun p => mkRow p.1.1 p.1.2 p.2) <$> data2).

(** The rows of the result read off a converted table: per row, the days
    from the latest date of its customer and from the earliest date of its
    article to the reference date. *)
Definition elapsed_rows (reference_date : Timestamp) (data : list Transaction) : list Row :=
  (fun r =>
     mkRow r
       (days_between reference_date
          <$> reduce Z.max (ts <$> filter (fun r' => customer_id r' = customer_id r) data))
       (days_between reference_date
          <$> reduce Z.min (ts <$> filter (fun r' => article_id r' = article_id r) data)))
    <$> data.

End Elapsed.

(** ** get_top_product_groups *)

Module TopGroups.

Record Row := mkRow {
  date : Timestamp;
  product_group : string;
  transaction_count : Z
}.

#[global] Instance string_leb_dec : RelDecision (fun s1 s2 : string => String.leb s1 s2 = true).
Proof. intros s1 s2. destruct (String.leb s1 s2); [left | right]; congruence. Defined.

(** Rows of the per-group totals: the group and its total. *)
Definition by_key (x y : string * Z) : Prop := String.leb x.1 y.1 = true.
Definition by_total_desc (x y : string * Z) : Prop := y.2 <= x.2.

#[global] Instance by_key_dec : RelDecision by_key.
Proof. intros x y. unfold by_key. apply _. Defined.
#[global] Instance by_total_desc_dec : RelDecision by_total_desc.
Proof. intros x y. unfold by_total_desc. apply _. Defined.

(** [groupby(...).sum().reset_index()]: one row per group, in key order. *)
Definition reset_index (totals : gmap string Z) : list (string * Z) :=
  merge_sort by_key (map_to_list totals).

(** [sort_values(by='transaction_count', ascending=False)]; groups with
    equal totals keep their relative order. *)
Definition sort_values_desc (rows : list (string * Z)) : list (string * Z) :=
  merge_sort by_total_desc rows.

(** [DataFrame.head(n)]: the first [n] rows; for negative [n], all rows
    but the last [-n]. *)
Definition head {A} (n : Z) (rows : list A) : list A :=
  if 0 <=? n then take (Z.to_nat n) rows
  else take (length rows - Z.to_nat (- n)) rows.

Definition get_top_product_groups (grouped_data : list Row) (top_n : Z) : list Row :=
  let product_group_totals :=
    reset_index (groupby_reduce Z.add (fun r => Some (product_group r))
                   transaction_count grouped_data) in
  let product_group_totals := sort_values_desc product_group_totals in
  let top_product_groups := head top_n product_group_totals in
  filter (fun r => product_group r ∈ top_product_groups.*1) grouped_data.

(** The total the ranking uses for a group. *)
Definition group_total (grouped_data : list Row) (g : string) : Z :=
  foldr Z.add 0 (transaction_count <$> filter (fun r => product_group r = g) grouped_data).

(** The selected top-N set of groups. *)
Definition top_set (grouped_data : list Row) (top_n : Z) : list string :=
  (head top_n (sort_values_desc
     (reset_index (groupby_reduce Z.add (fun r => Some (product_group r))
                     transaction_count grouped_data)))).*1.

(** The distinct product groups of a table. *)
Definition groups (rows : list Row) : list string :=
  remove_dups (product_group <$> rows).

End TopGroups.

(** ** load_best_hyperparameters *)

Module Hyper.

(** A cell of the parameter table. *)
Inductive Value :=
| VInt (n : Z)
| VFloat (q : Q)
| VStr (s : string)
| VNaN.

Record DataFrame := mkDataFrame {
  columns : list string;
  rows : list (list Value)
}.

(** A computation that returns or raises an exception (its message). *)
Inductive Exc (A : Type) :=
| Return (a : A)
| Raise (msg : string).
Arguments Return {A} a.
Arguments Raise {A} msg.

Definition bind {A B} (c : Exc A) (k : A → Exc B) : Exc B :=
  match c with
  | Return a => k a
  | Raise e => Raise e
  end.

Notation "'let*' x ':=' c 'in' k" := (bind c (fun x => k))
  (at level 10, x name, c at level 100, k at level 200).

(** What the collaborators answer for a path: [os.path.exists] and
    [pd.read_csv], which returns a table or raises. *)
Record World := mkWorld {
  path_exists : string → bool;
  read_csv : string → Exc DataFrame
}.

Definition ends_with_slash (s : string) : bool :=
  match last (list_ascii_of_string s) with
  | Some c => Ascii.eqb c "/"%char
  | None => false
  end.

(** [os.path.join(a, b)] (POSIX) for a relative [b]. *)
Definition path_join (a b : string) : string :=
  if (String.eqb a "" || ends_with_slash a)%bool then (a ++ b)%string
  else (a ++ "/" ++ b)%string.

(** [df.iloc[0]]: the first row, or IndexError. *)
Definition iloc0 (df : DataFrame) : Exc (list Value) :=
  match rows df with
  | r :: _ => Return r
  | [] => Raise "single positional indexer is out-of-bounds"
  end.

Definition to_dict (cols : list string) (row : list Value) : list (string * Value) :=
  zip cols row.

(** The call returns its result and the lines it printed. *)
Definition load_best_hyperparameters (w : World) (group_output_dir : string)
    : option (list (string * Value)) * list string :=
  let best_params_path := path_join group_output_dir "best_hyperparameters.csv" in
  if negb (path_exists w best_params_path) then (None, [])
  else
    match (let* df := read_csv w best_params_path in
           let* row := iloc0 df in
           Return (to_dict (columns df) row)) with
    | Return best_params => (Some best_params, [])
    | Raise e =>
        (None, [("Error loading best hyperparameters for " ++ group_output_dir ++ ": " ++ e)%string])
    end.

(** A world in which the parameter file of directory "out" holds only a
    header line: it exists and parses to a table without rows. *)
Definition header_only : World :=
  mkWorld (fun p => String.eqb p "out/best_hyperparameters.csv")
          (fun _ => Return (mkDataFrame ["learning_rate"; "max_depth"]%string [])).

(** A world with a one-row parameter file in directory "out". *)
Definition one_row : World :=
  mkWorld (fun p => String.eqb p "out/best_hyperparameters.csv")
          (fun _ => Return (mkDataFrame ["learning_rate"; "max_depth"]%string
                              [[VFloat (1 # 10); VInt 6]])).

(** A world without the file, and one in which reading it raises. *)
Definition no_file : World :=
  mkWorld (fun _ => false) (fun _ => Raise "No such file or directory").
Definition malformed : World :=
  mkWorld (fun p => String.eqb p "out/best_hyperparameters.csv")
          (fun _ => Raise "Error tokenizing data").

End Hyper.

(** ** create_grouped_data *)

Module GroupedData.
Import Customers.

(** A transaction row with the columns the roll-up reads besides the keys
    and the date. *)
Record Sale := mkSale {
  sale : Transaction;
  price : Q;
  sales_channel_id : Z
}.

(** A row of the joined table: the transaction with its elapsed-day
    columns, the article it matched and the customer, if one matched. *)
Record Joined := mkJoined {
  elapsed : Elapsed.Row;
  paid : Q;
  channel : Z;
  article : Articles.Article;
  customer : option Binned
}.

(** [pd.merge(left, right, on=key, how='inner')]: every left row, in order,
    paired with each matching right row; left rows without a match are
    dropped. *)
Definition merge_inner {K A B} `{EqDecision K} (kl : A → K) (kr : B → K)
    (left : list A) (right : list B) : list (A * B) :=
  left ≫= (fun a => (fun b => (a, b)) <$> filter (fun b => kr b = kl a) right).

Definition product_group_of (a : Articles.Article) : string :=
  (Articles.product_type_name a ++ " " ++ Articles.colour_group_name a ++ " "
   ++ Articles.graphical_appearance_name a)%string.

Definition group_key (r : Joined) : Z * string :=
  (ts (Elapsed.base (elapsed r)), product_group_of (article r)).

(** An aggregate that is a value or the literal 'Unknown'. *)
Inductive OrUnknown (A : Type) :=
| Known (a : A)
| Unknown.
Arguments Known {A} a.
Arguments Unknown {A}.

(** [x.mode().iloc[0]]: among the values that occur most often, the first
    in sorted order; nothing when the column has no value. *)
Definition mode {A} `{EqDecision A} (R : relation A) `{!RelDecision R} (l : list A) : option A :=
  let values := merge_sort R (remove_dups l) in
  let count := fun v => length (filter (fun x => x = v) l) in
  let best := foldr Nat.max 0%nat (count <$> values) in
  head (filter (fun v => count v = best) values).

Definition mode_or_unknown {A} `{EqDecision A} (R : relation A) `{!RelDecision R}
    (l : list A) : OrUnknown A :=
  match mode R l with
  | Some v => Known v
  | None => Unknown
  end.

Definition by_code (b1 b2 : AgeBin) : Prop := (AgeBin_code b1 <= AgeBin_code b2)%nat.

#[global] Instance by_code_dec : RelDecision by_code.
Proof. intros b1 b2. unfold by_code. apply _. Defined.

Record Row := mkRow {
  date : Timestamp;
  product_group : string;
  transaction_count : nat;
  avg_price : option Q;
  sales_channel : OrUnknown Z;
  most_common_age_bin : OrUnknown AgeBin;
  unique_customers : nat;
  unique_articles_sold : nat;
  median_age : option Q;
  fashion_news_subscribers : nat;
  first_purchase_days_ago : option Z;
  recent_purchase_days_ago : option Z;
  product_type_name : option string;
  colour_group_name : option string;
  graphical_appearance_name : option string
}.

Definition customer_age (r : Joined) : option Q := c ← customer r; age (cust c).
Definition customer_bin (r : Joined) : option AgeBin := c ← customer r; age_bin c.
Definition customer_news (r : Joined) : option string :=
  c ← customer r; fashion_news_frequency (cust c).

(** The aggregates of one (date, product group) group. *)
Definition aggregate (key : Z * string) (rows : list Joined) : Row :=
  {| date := key.1;
     product_group := key.2;
     transaction_count := length rows;
     avg_price := PurchaseRate.mean ((fun r => Some (paid r)) <$> rows);
     sales_channel := mode_or_unknown Z.le (channel <$> rows);
     most_common_age_bin := mode_or_unknown by_code (omap customer_bin rows);
     unique_customers :=
       length (remove_dups ((fun r => Transactions.customer_id (Elapsed.base (elapsed r))) <$> rows));
     unique_articles_sold :=
       length (remove_dups ((fun r => Transactions.article_id (Elapsed.base (elapsed r))) <$> rows));
     median_age := median (customer_age <$> rows);
     fashion_news_subscribers :=
       length (filter (fun r => customer_news r = Some "Regularly"%string) rows);
     first_purchase_days_ago :=
       reduce Z.min (omap (fun r => Elapsed.elapsed_days_since_first_sell (elapsed r)) rows);
     recent_purchase_days_ago :=
       reduce Z.min (omap (fun r => Elapsed.elapsed_days_since_last_purchase (elapsed r)) rows);
     product_type_name := head ((fun r => Articles.product_type_name (article r)) <$> rows);
     colour_group_name := head ((fun r => Articles.colour_group_name (article r)) <$> rows);
     graphical_appearance_name :=
       head ((fun r => Articles.graphical_appearance_name (article r)) <$> rows) |}.

(** The order of the group keys: by date, then by product group. *)
Definition by_group_key {V} (x y : Z * string * V) : Prop :=
  x.1.1 < y.1.1 ∨ (x.1.1 = y.1.1 ∧ String.leb x.1.2 y.1.2 = true).

#[global] Instance by_group_key_dec {V} : RelDecision (@by_group_key V).
Proof. intros x y. unfold by_group_key. apply _. Defined.

(** The joined table: transactions with their elapsed days, inner-joined
    to the articles, left-joined to the customers. *)
Definition joined_data (customers : list Binned) (articles : list Articles.Article)
    (transactions : list (Elapsed.Row * Sale)) : list Joined :=
  let transactions_articles :=
    merge_inner (fun t => Transactions.article_id (Elapsed.base t.1)) Articles.article_id
      transactions articles in
  (fun p => mkJoined p.1.1.1 (price p.1.1.2) (sales_channel_id p.1.1.2) p.1.2 p.2)
    <$> merge_left (fun p => Transactions.customer_id (Elapsed.base p.1.1))
          (fun c => Customers.customer_id (cust c)) transactions_articles customers.

(** [data.groupby(['date', 'product_group']).agg(...).reset_index()] *)
Definition group_rows (data : list Joined) : list Row :=
  (fun e => aggregate e.1 e.2)
    <$> merge_sort by_group_key
          (map_to_list (groupby_reduce app (fun r => Some (group_key r)) (fun r => [r]) data)).

(** The elapsed-day columns are computed on the key and date columns of the
    transactions; the other columns of a row ride along. [today] is the
    clock reading that serves as reference date. *)
Definition create_grouped_data (today : Timestamp) (customers : list Customer)
    (articles : list Articles.Article) (transactions : list Sale) : option (list Row) :=
  let customers := handle_missing_values customers in
  let customers := create_age_bins customers in
  result ← Elapsed.calculate_elapsed_days today (sale <$> transactions) None;
  let transactions := zip result.2 transactions in
  let data := joined_data customers articles transactions in
  Some (group_rows data).

(** A small data set: two articles of one product group and one of
    another, two known customers and an unknown one, and a transaction of
    an article that is not in the article table. *)
Definition sample_articles : list Articles.Article :=
  [Articles.mkArticle 10 "Top" "Black" "Solid"; Articles.mkArticle 11 "Top" "Black" "Solid";
   Articles.mkArticle 12 "Sock" "White" "Dot"].
Definition sample_customers : list Customer :=
  [mkCustomer 1 None None (Some "Regularly"%string) (Some 25%Q) None;
   mkCustomer 2 None None None None None].
Definition sample_sales : list Sale :=
  [mkSale (mkTransaction (DateStr "2024-01-01") 1 10) (1 # 2) 2;
   mkSale (mkTransaction (DateStr "2024-01-01") 2 11) (3 # 2) 1;
   mkSale (mkTransaction (DateStr "2024-01-01") 3 10) 1 1;
   mkSale (mkTransaction (DateStr "2024-01-02") 1 12) 1 2;
   mkSale (mkTransaction (DateStr "2024-01-02") 1 99) 1 2].
Definition sample_today : Timestamp := of_day (days_from_civil 2024 1 10).

End GroupedData.

(** ** process_name *)

Module Names.

(** A Python string is the list of its code points. *)
Definition space : N := 32.
Definition underscore : N := 95.
Definition hyphen : N := 45.
Definition dot : N := 46.

(** The ASCII characters that the class [\w] matches: letters, digits and
    the underscore. *)
Definition ascii_word (c : N) : bool :=
  ((48 <=? c) && (c <=? 57) || (65 <=? c) && (c <=? 90) || (97 <=? c) && (c <=? 122)
   || (c =? underscore))%N.

Section ProcessName.
(** Beyond ASCII, [\w] follows the Unicode tables, which are left open. *)
Variable unicode_word : N → bool.

Definition word (c : N) : bool :=
  if (c <? 128)%N then ascii_word c else unicode_word c.

(** The characters outside the class [[^\w\-_\.]]. *)
Definition kept (c : N) : bool :=
  (word c || (c =? hyphen) || (c =? underscore) || (c =? dot))%N.

(** [filename.replace(" ", "_")] *)
Definition replace_spaces (filename : list N) : list N :=
  (fun c => if (c =? space)%N then underscore else c) <$> filename.

(** [re.sub(r'[^\w\-_\.]', '_', filename)] *)
Definition re_sub (filename : list N) : list N :=
  (fun c => if kept c then c else underscore) <$> filename.

Definition process_name (filename : list N) : list N :=
  let filename := replace_spaces filename in
  re_sub filename.
End ProcessName.

End Names.

(** ** add_image_path_to_articles *)

Module Images.

Record Row := mkRow {
  art : Articles.Article;
  image_path : option string
}.

(** [str(article_id)]: the decimal numeral, with a minus sign below zero. *)
Definition str (n : Z) : string := DecimalString.NilEmpty.string_of_int (Z.to_int n).

(** The path of the image of an article if the file exists; [path_exists]
    is what [os.path.exists] answers. *)
Definition get_image_path (path_exists : string → bool) (image_base_path : string)
    (article_id : Z) : option string :=
  let folder := substring 0 3 (str article_id) in
  let file_name := (str article_id ++ ".jpg")%string in
  let full_path :=
    Hyper.path_join (Hyper.path_join image_base_path folder) file_name in
  if path_exists full_path then Some full_path else None.

Definition add_image_path_to_articles (path_exists : string → bool)
    (articles : list Articles.Article) (image_base_path : string) : list Row :=
  (fun a => mkRow a (get_image_path path_exists image_base_path (Articles.article_id a)))
    <$> articles.

End Images.

(** * Properties *)

(** ** Lookups in grouped tables *)

Section FrameFacts.
Context {K : Type} `{Countable K}.

Lemma lookup_map_of_keys {V} (f : K → V) (ks : list K) (k : K) :
  map_of_keys f ks !! k = if decide (k ∈ ks) then Some (f k) else None.
Proof.
  unfold map_of_keys. induction ks as [|k' ks IH].
  - simpl. by rewrite lookup_empty.
  - rewrite fmap_cons, list_to_map_cons. destruct (decide (k' = k)) as [->|Hne].
    + rewrite lookup_insert_eq. rewrite decide_True by left. done.
    + rewrite lookup_insert_ne by done. rewrite IH.
      destruct (decide (k ∈ ks)) as [Hin|Hin].
      * rewrite decide_True by (by right). done.
      * rewrite decide_False; [done|]. by intros [->|?]%elem_of_cons.
Qed.

Lemma lookup_groupby_reduce {A V} (f : V → V → V) (key : A → option K)
    (val : A → V) (df : list A) (k : K) :
  groupby_reduce f key val df !! k
  = reduce f (val <$> filter (fun r => key r = Some k) df).
Proof.
  unfold groupby_reduce. induction df as [|r df IH]; simpl.
  - apply lookup_empty.
  - rewrite filter_cons. destruct (key r) as [k'|] eqn:Hk.
    + destruct (decide (k' = k)) as [->|Hne].
      * rewrite decide_True by done. rewrite lookup_insert_eq. simpl.
        by rewrite IH.
      * rewrite decide_False by congruence. by rewrite lookup_insert_ne.
    + rewrite decide_False by congruence. done.
Qed.

Lemma reduce_count {A} (l : list A) :
  reduce Nat.add ((fun _ => 1%nat) <$> l)
  = match l with [] => None | _ => Some (length l) end.
Proof.
  induction l as [|x l IH]; [done|]. csimpl. rewrite IH. by destruct l.
Qed.

Lemma lookup_groupby_size {A} (key : A → option K) (df : list A) (k : K) :
  groupby_size key df !! k
  = match filter (fun r => key r = Some k) df with
    | [] => None
    | rows => Some (length rows)
    end.
Proof.
  unfold groupby_size. rewrite lookup_groupby_reduce, reduce_count.
  by destruct (filter _ df).
Qed.
End FrameFacts.

Lemma reduce_sum (l : list Z) :
  reduce Z.add l = match l with [] => None | _ => Some (foldr Z.add 0 l) end.
Proof.
  induction l as [|x l IH]; [done|]. simpl. rewrite IH. destruct l; f_equal; simpl; lia.
Qed.

Lemma reduce_max_ge (l : list Z) (x : Z) :
  x ∈ l → ∃ m, reduce Z.max l = Some m ∧ x <= m.
Proof.
  induction l as [|y l IH]; [by intros ?%elem_of_nil|].
  intros [->|Hin]%elem_of_cons; simpl.
  - eexists; split; [done|]. destruct (reduce Z.max l); lia.
  - destruct (IH Hin) as (m & -> & Hle). eexists; split; [done|]. lia.
Qed.

Lemma reduce_min_le (l : list Z) (x : Z) :
  x ∈ l → ∃ m, reduce Z.min l = Some m ∧ m <= x.
Proof.
  induction l as [|y l IH]; [by intros ?%elem_of_nil|].
  intros [->|Hin]%elem_of_cons; simpl.
  - eexists; split; [done|]. destruct (reduce Z.min l); lia.
  - destruct (IH Hin) as (m & -> & Hle). eexists; split; [done|]. lia.
Qed.

(** ** The date column *)

Lemma convert_t_dat_Some (df df' : list Transaction) :
  convert_t_dat df = Some df' ↔
  Forall2 (fun r r' => ∃ t, to_datetime (t_dat r) = Some t ∧ r' = set_t_dat t r) df df'.
Proof.
  unfold convert_t_dat. rewrite mapM_Some.
  split; intros HF; (eapply Forall2_impl; [exact HF|]); intros r r'.
  - intros Hr. simpl in Hr. destruct (to_datetime (t_dat r)) as [t|]; simplify_eq/=; eauto.
  - intros (t & -> & ->). done.
Qed.

(** Converting a converted column changes nothing. *)
Lemma convert_t_dat_idemp (df df' : list Transaction) :
  convert_t_dat df = Some df' → convert_t_dat df' = Some df'.
Proof.
  rewrite !convert_t_dat_Some. intros Hconv.
  induction Hconv as [|r r' df df' (t & _ & ->) _ IH]; constructor; [|done].
  exists t. done.
Qed.

(** The conversion succeeds when every cell holds a date. *)
Lemma convert_t_dat_total (df : list Transaction) :
  Forall (fun r => is_Some (to_datetime (t_dat r))) df →
  ∃ df', convert_t_dat df = Some df' ∧ length df' = length df.
Proof.
  induction 1 as [|r df [t Ht] _ (df' & IH & Hlen)].
  - by exists [].
  - exists (set_t_dat t r :: df'). split; [|simpl; by rewrite Hlen].
    unfold convert_t_dat in *. simpl. rewrite Ht. simpl. by rewrite IH.
Qed.

(** ** weekly_aggregation *)

Section WeeklyFacts.
Import Weekly.

Lemma of_day_inj (d1 d2 : Z) : of_day d1 = of_day d2 → d1 = d2.
Proof. unfold of_day, ns_per_day. lia. Qed.

Lemma weekday_week_start (d : Z) : weekday (week_start_day d) = 0.
Proof.
  unfold week_start_day, weekday.
  replace (d - (d + 3) mod 7 + 3) with ((d + 3) - (d + 3) mod 7) by lia.
  rewrite Zminus_mod_idemp_r. rewrite Z.sub_diag. done.
Qed.

Lemma weekday_week_end (d i : Z) : weekday (week_end_day d + 7 * i) = 6.
Proof.
  unfold week_end_day.
  pose proof (weekday_week_start d) as Hs. unfold weekday in *.
  replace (week_start_day d + 6 + 7 * i + 3) with ((week_start_day d + 3) + (6 + i * 7)) by lia.
  rewrite Z.add_mod, Hs by lia. rewrite Z.add_0_l, Z.mod_mod by lia.
  rewrite Z.mod_add by lia. done.
Qed.

(** Every key of the weekly counts is a Sunday. *)
Lemma bin_labels_sunday (stamps : list Timestamp) (l : Timestamp) :
  l ∈ bin_labels stamps → ∃ d, l = of_day d ∧ weekday d = 6.
Proof.
  destruct stamps as [|t rest]; simpl; [by intros ?%elem_of_nil|].
  intros (i & -> & _)%list_elem_of_fmap. eexists; split; [done|].
  apply weekday_week_end.
Qed.

(** The week of a row is a Monday, so it is never a key of the counts. *)
Lemma week_not_a_label (stamps : list Timestamp) (t : Timestamp) :
  week_of t ∉ bin_labels stamps.
Proof.
  intros (d & Heq & Hd)%bin_labels_sunday. apply of_day_inj in Heq.
  pose proof (weekday_week_start (day_of t)) as Hs. rewrite Heq in Hs. lia.
Qed.

(** Whatever the table, the lookup of the week in the weekly counts
    misses on every row: the column holds only missing values. *)
Lemma weekly_transactions_all_missing (transactions : list Transaction) (out : list Row) :
  weekly_aggregation transactions = Some out →
  Forall (fun r => weekly_transactions r = None) out.
Proof.
  unfold weekly_aggregation. intros Hout.
  destruct (convert_t_dat transactions) as [df|]; simplify_eq/=.
  rewrite zip_with_fmap_r, zip_with_diag, Forall_fmap.
  apply Forall_forall. intros r _. simpl.
  unfold resample_size. rewrite lookup_map_of_keys.
  rewrite decide_False; [done | apply week_not_a_label].
Qed.
End WeeklyFacts.

(** C1.  On the two-row table of the claim (2024-01-01 and 2024-01-03, the
    same week) the call returns, both rows get the week starting
    2024-01-01, and [weekly_transactions] is missing on both rows instead
    of 2: the weekly counts are keyed by the Sunday ending the week
    (2024-01-07, where the count 2 is), the rows look up the Monday
    starting it. *)
Theorem weekly_aggregation_example_missing :
  let monday := of_day (days_from_civil 2024 1 1) in
  let wednesday := of_day (days_from_civil 2024 1 3) in
  let sunday := of_day (days_from_civil 2024 1 7) in
  let transactions :=
    [mkTransaction (DateStr "2024-01-01") 1 10; mkTransaction (DateStr "2024-01-03") 1 10] in
  Weekly.weekly_aggregation transactions
  = Some [Weekly.mkRow (mkTransaction (DateTs monday) 1 10) monday None;
          Weekly.mkRow (mkTransaction (DateTs wednesday) 1 10) monday None]
  ∧ (df ← convert_t_dat transactions; Weekly.resample_size df !! sunday) = Some 2.
Proof. split; vm_compute; reflexivity. Qed.

(** ** group_articles *)

(** C6.  After [group_articles] the rows are the articles of the table, in
    order, and every row carries as [article_count] the number of articles
    of the table with the same product type, colour group and graphical
    appearance. *)
Theorem group_articles_count (articles : list Articles.Article) :
  Articles.group_articles articles
  = (fun a =>
       Articles.mkGrouped a
         (Some (length (filter (fun a' =>
            Articles.product_type_name a' = Articles.product_type_name a
            ∧ Articles.colour_group_name a' = Articles.colour_group_name a
            ∧ Articles.graphical_appearance_name a' = Articles.graphical_appearance_name a)
            articles)))) <$> articles.
Proof.
  unfold Articles.group_articles, merge_grouped. rewrite <- list_fmap_compose.
  apply list_fmap_ext. intros i a Ha%list_elem_of_lookup_2. simpl. f_equal.
  rewrite lookup_groupby_size.
  assert (filter (fun r => Some (Articles.group_key r) = Some (Articles.group_key a)) articles
          = filter (fun a' =>
              Articles.product_type_name a' = Articles.product_type_name a
              ∧ Articles.colour_group_name a' = Articles.colour_group_name a
              ∧ Articles.graphical_appearance_name a' = Articles.graphical_appearance_name a)
              articles) as ->.
  { apply list_filter_iff. intros a'. unfold Articles.group_key.
    split; [intros [=]; auto | intros (? & ? & ?); congruence]. }
  destruct (filter _ articles) as [|x l] eqn:Hf; [|done].
  exfalso. apply (filter_nil_not_elem_of _ _ a Hf); [done|done].
Qed.

(** ** calculate_elapsed_days *)

Section ElapsedFacts.
Import Elapsed.

Lemma filter_some_eq {A B} `{EqDecision B} (f : A → B) (b : B) (l : list A) :
  filter (fun r => Some (f r) = Some b) l = filter (fun r => f r = b) l.
Proof. apply list_filter_iff. intros r. split; [by intros [=] | by intros ->]. Qed.

Lemma groupby_reduce_fmap {A B V} `{Countable K} (g : A → B) (f : V → V → V)
    (key : B → option K) (val : B → V) (l : list A) :
  groupby_reduce f key val (g <$> l) = groupby_reduce f (key ∘ g) (val ∘ g) l.
Proof.
  unfold groupby_reduce. induction l as [|x l IH]; [done|].
  csimpl. by rewrite IH.
Qed.

Lemma calculate_elapsed_days_unfold today data reference_date :
  calculate_elapsed_days today data reference_date
  = (df ← convert_t_dat data; Some (df, elapsed_rows (default today reference_date) df)).
Proof.
  unfold calculate_elapsed_days. destruct (convert_t_dat data) as [df|]; [|done].
  simpl. do 2 f_equal. unfold elapsed_rows, merge_grouped.
  rewrite <- !list_fmap_compose. apply list_fmap_ext. intros _ r _. simpl.
  rewrite groupby_reduce_fmap. rewrite !lookup_fmap, !lookup_groupby_reduce.
  unfold compose. simpl. by rewrite !filter_some_eq.
Qed.

Lemma days_between_mono (reference_date t1 t2 : Timestamp) :
  t1 <= t2 → days_between reference_date t2 <= days_between reference_date t1.
Proof.
  intros Hle. unfold days_between, ns_per_day. apply Z.div_le_mono; lia.
Qed.
End ElapsedFacts.

(** C8.  With a fixed reference date the result does not depend on the
    clock or on the run: when a call returns the converted table [data']
    and the rows [out], a second call on the same data, and a second call
    on the caller's table as the first call left it (its date column
    converted in place), return the same rows, so both elapsed-day columns
    are identical. *)
Theorem calculate_elapsed_days_deterministic
    (today1 today2 : Timestamp) (data : list Transaction) (reference_date : Timestamp)
    (data' : list Transaction) (out : list Elapsed.Row) :
  Elapsed.calculate_elapsed_days today1 data (Some reference_date) = Some (data', out) →
  Elapsed.calculate_elapsed_days today2 data (Some reference_date) = Some (data', out)
  ∧ Elapsed.calculate_elapsed_days today2 data' (Some reference_date) = Some (data', out).
Proof.
  rewrite !calculate_elapsed_days_unfold. simpl.
  destruct (convert_t_dat data) as [df|] eqn:Hconv; [|done].
  simpl. intros [= <- <-]. split; [done|].
  by rewrite (convert_t_dat_idemp _ _ Hconv).
Qed.

Lemma calculate_elapsed_days_deterministic_witness :
  let data := [mkTransaction (DateStr "2024-01-01") 1 10;
               mkTransaction (DateStr "2024-01-03") 1 11;
               mkTransaction (DateStr "2024-01-05") 2 10] in
  let reference_date := of_day (days_from_civil 2024 1 10) in
  let data' := [mkTransaction (DateTs (of_day (days_from_civil 2024 1 1))) 1 10;
                mkTransaction (DateTs (of_day (days_from_civil 2024 1 3))) 1 11;
                mkTransaction (DateTs (of_day (days_from_civil 2024 1 5))) 2 10] in
  Elapsed.calculate_elapsed_days 8 data (Some reference_date)
  = Some (data', Elapsed.elapsed_rows reference_date data')
  ∧ Elapsed.calculate_elapsed_days 8 data' (Some reference_date)
  = Some (data', Elapsed.elapsed_rows reference_date data').
Proof.
  intros data reference_date data'.
  apply (calculate_elapsed_days_deterministic 5 8 data reference_date).
  vm_compute. reflexivity.
Defined.

(** C10.  When every date cell holds a date the call returns one row per
    input row, and on every returned row both elapsed-day values are
    present and [elapsed_days_since_first_sell] is at least
    [elapsed_days_since_last_purchase], for any reference date (given or
    read from the clock). *)
Theorem first_sell_ge_last_purchase
    (today : Timestamp) (data : list Transaction) (reference_date : option Timestamp) :
  Forall (fun r => is_Some (to_datetime (t_dat r))) data →
  ∃ data' out,
    Elapsed.calculate_elapsed_days today data reference_date = Some (data', out)
    ∧ length out = length data
    ∧ Forall (fun r => ∃ l f,
                Elapsed.elapsed_days_since_last_purchase r = Some l
                ∧ Elapsed.elapsed_days_since_first_sell r = Some f
                ∧ l <= f) out.
Proof.
  intros (df & Hconv & Hlen)%convert_t_dat_total.
  rewrite calculate_elapsed_days_unfold, Hconv. simpl.
  eexists _, _. split; [done|]. unfold Elapsed.elapsed_rows.
  split; [by rewrite length_fmap|].
  rewrite Forall_fmap. apply Forall_forall. intros r Hr. simpl.
  destruct (reduce_max_ge (ts <$> filter (fun r' => customer_id r' = customer_id r) df) (ts r))
    as (M & -> & HM).
  { apply list_elem_of_fmap_2, list_elem_of_filter. done. }
  destruct (reduce_min_le (ts <$> filter (fun r' => article_id r' = article_id r) df) (ts r))
    as (m & -> & Hm).
  { apply list_elem_of_fmap_2, list_elem_of_filter. done. }
  simpl. eexists _, _. split; [done|]. split; [done|].
  apply days_between_mono. lia.
Qed.

Lemma first_sell_ge_last_purchase_witness :
  ∃ data' out,
    Elapsed.calculate_elapsed_days 0
      [mkTransaction (DateStr "2024-01-01") 1 10;
       mkTransaction (DateStr "2024-01-03") 1 11;
       mkTransaction (DateTs (of_day (days_from_civil 2024 1 5) + 7)) 2 10]
      (Some (of_day (days_from_civil 2024 1 10))) = Some (data', out)
    ∧ length out = 3%nat
    ∧ Forall (fun r => ∃ l f,
                Elapsed.elapsed_days_since_last_purchase r = Some l
                ∧ Elapsed.elapsed_days_since_first_sell r = Some f
                ∧ l <= f) out.
Proof.
  apply (first_sell_ge_last_purchase 0
           [mkTransaction (DateStr "2024-01-01") 1 10;
            mkTransaction (DateStr "2024-01-03") 1 11;
            mkTransaction (DateTs (of_day (days_from_civil 2024 1 5) + 7)) 2 10]).
  repeat constructor; vm_compute; eauto.
Defined.

(** ** create_age_bins *)

Section AgeBinFacts.
Import Customers.

(** The examples of the specification: ages 15, 65 and 45. *)
Lemma create_age_bins_examples :
  (fun r => (adjusted_age r, age_label <$> age_bin r))
    <$> create_age_bins [aged 1 (Some 15%Q); aged 2 (Some 65%Q); aged 3 (Some 45%Q)]
  = [(Some 10%Q, Some "10-19"%string); (Some 60%Q, Some "60+"%string);
     (Some 45%Q, Some "40-49"%string)].
Proof. vm_compute. reflexivity. Qed.

(** A missing age stays missing and gets no bin. *)
Lemma create_age_bins_row_missing (r : Customer) :
  age r = None → adjusted_age (create_age_bins_row r) = None
                 ∧ age_bin (create_age_bins_row r) = None.
Proof. unfold create_age_bins_row. intros ->. done. Qed.

(** The bin of an age between 20 and 60 is decided by the edges
    19, 29, 39, 49 and 59, not by the decades. *)
Lemma create_age_bins_row_edges (r : Customer) (a : Q) :
  age r = Some a → (20 <= a)%Q → (a < 60)%Q →
  adjusted_age (create_age_bins_row r) = Some a
  ∧ age_bin (create_age_bins_row r)
    = Some (if Qlt_bool a 29 then B20_29
            else if Qlt_bool a 39 then B30_39
            else if Qlt_bool a 49 then B40_49
            else if Qlt_bool a 59 then B50_59
            else B60_plus).
Proof.
  intros Ha Hlo Hhi. unfold create_age_bins_row, Qlt_bool. rewrite Ha.
  assert (∀ x : Q, (x <= a)%Q → Qle_bool x a = true) as Hle.
  { intros x Hx. by apply Qle_bool_iff. }
  assert (∀ x : Q, (a < x)%Q → Qle_bool x a = false) as Hgt.
  { intros x Hx. apply not_true_is_false. rewrite Qle_bool_iff. lra. }
  rewrite (Hle 20%Q), (Hgt 60%Q) by lra. simpl negb. cbv iota. split; [done|].
  assert (Qeq_bool a 10 = false) as ->.
  { apply not_true_is_false. intros Heq%Qeq_bool_eq. lra. }
  assert (Qeq_bool a 60 = false) as ->.
  { apply not_true_is_false. intros Heq%Qeq_bool_eq. lra. }
  simpl. rewrite (Hle 10%Q), (Hle 19%Q), (Hgt 69%Q) by lra. simpl.
  destruct (Qle_bool 29 a) eqn:H29; simpl; [|done].
  destruct (Qle_bool 39 a) eqn:H39; simpl; [|done].
  destruct (Qle_bool 49 a) eqn:H49; simpl; [|done].
  destruct (Qle_bool 59 a) eqn:H59; simpl; done.
Qed.
End AgeBinFacts.

(** C4.  A customer aged 29 keeps [adjusted_age] 29 and gets the bin
    labelled "30-39", not the decade band "20-29" that contains 29; the
    same happens at 39, 49 and 59, which get "40-49", "50-59" and "60+". *)
Theorem create_age_bins_boundary_ages :
  (fun r => (Customers.adjusted_age r, Customers.age_label <$> Customers.age_bin r))
    <$> Customers.create_age_bins
          [Customers.aged 1 (Some 29%Q); Customers.aged 2 (Some 39%Q);
           Customers.aged 3 (Some 49%Q); Customers.aged 4 (Some 59%Q)]
  = [(Some 29%Q, Some "30-39"%string); (Some 39%Q, Some "40-49"%string);
     (Some 49%Q, Some "50-59"%string); (Some 59%Q, Some "60+"%string)].
Proof. vm_compute. reflexivity. Qed.

(** ** handle_missing_values *)

Section MissingValueFacts.
Import Customers.

Lemma is_Some_fillna {A} (v x : option A) :
  is_Some v ∨ is_Some x → is_Some (fillna v x).
Proof. destruct x; simpl; [eauto | by intros [?|[? [=]]]]. Qed.

(** The median exists as soon as one value is present. *)
Lemma median_is_Some (col : list (option Q)) :
  (∃ x, Some x ∈ col) → is_Some (median col).
Proof.
  intros [x Hx]. unfold median.
  assert (length (merge_sort Qle (omap id col)) ≠ 0%nat) as Hlen.
  { rewrite merge_sort_Permutation.
    assert (x ∈ omap id col) as Hin by (apply list_elem_of_omap; eauto).
    destruct (omap id col); [by apply elem_of_nil in Hin | done]. }
  set (vs := merge_sort Qle (omap id col)) in *.
  destruct (Nat.eqb_spec (length vs) 0) as [|_]; [done|].
  assert (length vs / 2 < length vs)%nat as Hmid by (apply Nat.div_lt; lia).
  destruct (Nat.odd (length vs)) eqn:Hodd.
  - by apply lookup_lt_is_Some.
  - destruct (lookup_lt_is_Some_2 vs (length vs / 2 - 1)) as [a ->]; [lia|].
    destruct (lookup_lt_is_Some_2 vs (length vs / 2)) as [b ->]; [lia|].
    simpl. eauto.
Qed.

Lemma handle_missing_values_rows (customers : list Customer) :
  let med := median ((fun r => age r) <$> customers) in
  handle_missing_values customers
  = (fun r =>
       let fnf := fillna (Some "None"%string) (fashion_news_frequency r) in
       mkCustomer (customer_id r) (fillna (Some 0%Q) (FN r)) (fillna (Some 0%Q) (Active r))
         fnf (fillna med (age r))
         (match club_member_status r with
          | None => if decide (fnf = Some "Regularly"%string)
                    then Some "ACTIVE"%string else Some "NON-ACTIVE"%string
          | Some s => Some s
          end)) <$> customers.
Proof.
  unfold handle_missing_values. simpl.
  rewrite <- !list_fmap_compose. done.
Qed.
End MissingValueFacts.

(** C5 as stated fails: a table whose only customer has no age comes back
    with the age still missing (the median of no value is itself missing). *)
Lemma handle_missing_values_all_ages_missing :
  ¬ Forall Customers.no_missing
      (Customers.handle_missing_values [Customers.aged 1 None]).
Proof.
  intros Hall. apply Forall_cons_1 in Hall as [(_ & _ & _ & [a Ha] & _) _].
  vm_compute in Ha. discriminate.
Qed.

(** C5 (amended).  [handle_missing_values] returns for every table; when
    at least one customer has an age, no row of the result has a missing
    value in FN, Active, fashion_news_frequency, age or club_member_status. *)
Theorem handle_missing_values_no_missing (customers : list Customers.Customer) :
  (∃ c, c ∈ customers ∧ is_Some (Customers.age c)) →
  length (Customers.handle_missing_values customers) = length customers
  ∧ Forall Customers.no_missing (Customers.handle_missing_values customers).
Proof.
  intros (c & Hc & [a Ha]). rewrite handle_missing_values_rows. simpl.
  split; [by rewrite length_fmap|].
  rewrite Forall_fmap. apply Forall_forall. intros r _.
  unfold Customers.no_missing, compose. simpl.
  repeat split; try by (apply is_Some_fillna; eauto).
  - apply is_Some_fillna. left. apply median_is_Some. exists a.
    apply list_elem_of_fmap. eauto.
  - destruct (Customers.club_member_status r); [eauto|]. case_decide; eauto.
Qed.

Lemma handle_missing_values_no_missing_witness :
  length (Customers.handle_missing_values
            [Customers.aged 1 (Some 31%Q); Customers.aged 2 None; Customers.aged 3 (Some 48%Q)])
  = 3%nat
  ∧ Forall Customers.no_missing
      (Customers.handle_missing_values
         [Customers.aged 1 (Some 31%Q); Customers.aged 2 None; Customers.aged 3 (Some 48%Q)]).
Proof.
  apply (handle_missing_values_no_missing
           [Customers.aged 1 (Some 31%Q); Customers.aged 2 None; Customers.aged 3 (Some 48%Q)]).
  exists (Customers.aged 1 (Some 31%Q)). split; [left | simpl; eauto].
Defined.

(** ** get_top_product_groups *)

Section TopGroupFacts.
Import TopGroups.

#[local] Instance by_total_desc_trans : Transitive by_total_desc.
Proof. unfold by_total_desc. intros x y z. lia. Qed.

#[local] Instance by_total_desc_total : Total by_total_desc.
Proof. unfold by_total_desc. intros x y. lia. Qed.

Lemma head_take {A} (n : Z) (rows : list A) :
  ∃ k, head n rows = take k rows.
Proof. unfold head. destruct (0 <=? n); eauto. Qed.

(** The per-group totals hold one entry per group that has rows: the sum
    of its counts. *)
Lemma lookup_totals (grouped_data : list Row) (g : string) :
  groupby_reduce Z.add (fun r => Some (product_group r)) transaction_count grouped_data !! g
  = if decide (g ∈ product_group <$> grouped_data)
    then Some (group_total grouped_data g) else None.
Proof.
  rewrite lookup_groupby_reduce, reduce_sum. unfold group_total.
  rewrite (list_filter_iff _ (fun r => product_group r = g))
    by (intros r; split; [by intros [=] | by intros ->]).
  destruct (filter _ grouped_data) as [|r rs] eqn:Hf.
  - rewrite decide_False; [done|].
    intros (r & -> & Hr)%list_elem_of_fmap.
    by apply (filter_nil_not_elem_of _ _ r Hf).
  - rewrite decide_True; [done|].
    assert (r ∈ filter (fun r => product_group r = g) grouped_data) as Hr
      by (rewrite Hf; left).
    apply list_elem_of_filter in Hr as [<- Hr]. by apply list_elem_of_fmap_2.
Qed.

(** The ranked table lists every group of the input with its total. *)
Lemma elem_of_ranked (grouped_data : list Row) (g : string) (v : Z) :
  (g, v) ∈ sort_values_desc
             (reset_index (groupby_reduce Z.add (fun r => Some (product_group r))
                             transaction_count grouped_data))
  ↔ g ∈ product_group <$> grouped_data ∧ v = group_total grouped_data g.
Proof.
  unfold sort_values_desc, reset_index. rewrite !merge_sort_Permutation.
  rewrite elem_of_map_to_list, lookup_totals.
  case_decide; split; try done.
  - by intros [= <-].
  - by intros [_ ->].
  - by intros [? _].
Qed.

Lemma ranked_sorted (grouped_data : list Row) :
  StronglySorted by_total_desc
    (sort_values_desc
       (reset_index (groupby_reduce Z.add (fun r => Some (product_group r))
                       transaction_count grouped_data))).
Proof. unfold sort_values_desc. apply StronglySorted_merge_sort; apply _. Qed.
End TopGroupFacts.

(** C7.  For every grouped table and every N (negative ones included) the
    result has at most as many rows as the input, it holds exactly the
    input rows whose group is in the selected top-N set, and the total
    transaction count of every group present in the result is at least the
    total of every group of the input that is absent from it. *)
Theorem get_top_product_groups_ranked (grouped_data : list TopGroups.Row) (top_n : Z) :
  let out := TopGroups.get_top_product_groups grouped_data top_n in
  (length out <= length grouped_data)%nat
  ∧ (∀ r, r ∈ out ↔
          r ∈ grouped_data
          ∧ TopGroups.product_group r ∈ TopGroups.top_set grouped_data top_n)
  ∧ (∀ g g',
        g ∈ TopGroups.product_group <$> out →
        g' ∈ TopGroups.product_group <$> grouped_data →
        g' ∉ TopGroups.product_group <$> out →
        TopGroups.group_total grouped_data g' <= TopGroups.group_total grouped_data g).
Proof.
  intros out.
  assert (∀ r, r ∈ out ↔
            r ∈ grouped_data
            ∧ TopGroups.product_group r ∈ TopGroups.top_set grouped_data top_n) as Hout.
  { intros r. unfold out, TopGroups.get_top_product_groups, TopGroups.top_set.
    rewrite list_elem_of_filter. tauto. }
  split; [apply length_filter|]. split; [exact Hout|].
  intros g g' (r & -> & Hr)%list_elem_of_fmap Hg' Hex.
  apply Hout in Hr as [_ Hr]. unfold TopGroups.top_set in Hr.
  apply list_elem_of_fmap in Hr as ([g v] & Hg & Hin). simpl in Hg. subst g.
  pose proof (ranked_sorted grouped_data) as Hsorted.
  destruct (head_take top_n
              (TopGroups.sort_values_desc
                 (TopGroups.reset_index
                    (groupby_reduce Z.add (fun r => Some (TopGroups.product_group r))
                       TopGroups.transaction_count grouped_data)))) as [k Hk].
  rewrite Hk in Hin.
  set (ranked := TopGroups.sort_values_desc _) in *.
  rewrite <- (take_drop k ranked) in Hsorted.
  assert ((TopGroups.product_group r, v) ∈ ranked) as Hv
    by (rewrite <- (take_drop k ranked); apply elem_of_app; by left).
  apply elem_of_ranked in Hv as [_ ->].
  assert ((g', TopGroups.group_total grouped_data g') ∈ ranked) as Hr'
    by by apply elem_of_ranked.
  rewrite <- (take_drop k ranked) in Hr'. apply elem_of_app in Hr' as [Htop|Hrest].
  - exfalso. apply Hex.
    apply list_elem_of_fmap in Hg' as (r' & -> & Hr').
    apply list_elem_of_fmap_2. apply Hout. split; [done|].
    unfold TopGroups.top_set. fold ranked. rewrite Hk.
    apply list_elem_of_fmap. by exists (TopGroups.product_group r', TopGroups.group_total grouped_data (TopGroups.product_group r')).
  - apply (StronglySorted_app_1_elem_of _ _ _ _ _ Hsorted Hin Hrest).
Qed.

Lemma get_top_product_groups_ranked_witness :
  let grouped_data :=
    [TopGroups.mkRow 0 "b" 3; TopGroups.mkRow 0 "a" 3; TopGroups.mkRow 1 "c" 5;
     TopGroups.mkRow 1 "a" 1; TopGroups.mkRow 1 "d" 4] in
  TopGroups.get_top_product_groups grouped_data 2
  = [TopGroups.mkRow 0 "a" 3; TopGroups.mkRow 1 "c" 5; TopGroups.mkRow 1 "a" 1]
  ∧ TopGroups.group_total grouped_data "d" <= TopGroups.group_total grouped_data "a".
Proof.
  intros grouped_data. split; [vm_compute; reflexivity|].
  apply (proj2 (proj2 (get_top_product_groups_ranked grouped_data 2)) "a"%string "d"%string).
  - apply (bool_decide_unpack _). vm_compute. exact I.
  - apply (bool_decide_unpack _). vm_compute. exact I.
  - apply (bool_decide_unpack _). vm_compute. exact I.
Defined.

(** ** load_best_hyperparameters *)

(** C9 as stated fails: a parameter file that exists and parses, but holds
    no row, also gives an absent result, not a first-row mapping. *)
Lemma load_best_hyperparameters_header_only :
  let path := Hyper.path_join "out" "best_hyperparameters.csv" in
  Hyper.path_exists Hyper.header_only path = true
  ∧ (∃ df, Hyper.read_csv Hyper.header_only path = Hyper.Return df)
  ∧ ¬ (∃ params, (Hyper.load_best_hyperparameters Hyper.header_only "out").1 = Some params).
Proof.
  split; [reflexivity|]. split; [eexists; reflexivity|].
  intros [params Hp]. vm_compute in Hp. discriminate.
Qed.

(** C9 (amended).  The result of [load_best_hyperparameters] is absent when
    the file does not exist, when reading it raises, and when the table
    read has no row; otherwise it is the first row as a mapping from the
    column names.  A missing file and a failed read give the same result. *)
Theorem load_best_hyperparameters_result (w : Hyper.World) (group_output_dir : string) :
  let path := Hyper.path_join group_output_dir "best_hyperparameters.csv" in
  (Hyper.load_best_hyperparameters w group_output_dir).1
  = if Hyper.path_exists w path then
      match Hyper.read_csv w path with
      | Hyper.Raise _ => None
      | Hyper.Return df =>
          match Hyper.rows df with
          | [] => None
          | row :: _ => Some (zip (Hyper.columns df) row)
          end
      end
    else None.
Proof.
  simpl. unfold Hyper.load_best_hyperparameters.
  destruct (Hyper.path_exists w _); simpl; [|done].
  destruct (Hyper.read_csv w _) as [df|e]; simpl; [|done].
  unfold Hyper.iloc0. destruct (Hyper.rows df); done.
Qed.

Example load_best_hyperparameters_worlds :
  Hyper.load_best_hyperparameters Hyper.one_row "out"
  = (Some [("learning_rate"%string, Hyper.VFloat (1 # 10)); ("max_depth"%string, Hyper.VInt 6)], [])
  ∧ Hyper.load_best_hyperparameters Hyper.no_file "out" = (None, [])
  ∧ Hyper.load_best_hyperparameters Hyper.malformed "out"
    = (None, ["Error loading best hyperparameters for out: Error tokenizing data"%string]).
Proof. repeat split; vm_compute; reflexivity. Qed.

(** ** purchase_rate_per_article_per_age *)

Section PurchaseRateFacts.
Import Customers PurchaseRate.

Implicit Types (temp : list (Transaction * option Binned)) (a : Z) (b : AgeBin).

Lemma omap_decide_filter {A B} (P : A → Prop) `{∀ x, Decision (P x)} (f : A → B) (l : list A) :
  omap (fun x => if decide (P x) then Some (f x) else None) l = f <$> filter P l.
Proof.
  induction l as [|x l IH]; [done|]. rewrite filter_cons. csimpl.
  destruct (decide (P x)); csimpl; by rewrite IH.
Qed.

Lemma omap_id_Some {A B} (g : A → B) (l : list A) :
  omap id ((fun x => Some (g x)) <$> l) = g <$> l.
Proof. induction l as [|x l IH]; [done|]. csimpl. by rewrite IH. Qed.

Lemma elem_of_pairs {A B} (xs : list A) (ys : list B) (x : A) (y : B) :
  (x, y) ∈ (x' ← xs; (fun y' => (x', y')) <$> ys) ↔ x ∈ xs ∧ y ∈ ys.
Proof.
  rewrite list_elem_of_bind. split.
  - intros (x' & Hin & Hx'). apply list_elem_of_fmap in Hin as (y' & [= -> ->] & ?). done.
  - intros [? ?]. exists x. split; [|done]. apply list_elem_of_fmap. by exists y.
Qed.

Lemma elem_of_age_labels b : b ∈ age_labels.
Proof. apply list_elem_of_In. destruct b; simpl; auto 10. Qed.

Lemma lookup_sizes temp a b :
  groupby_size temp_key temp !! (a, b)
  = if decide (bin_count temp a b ≠ 0%nat) then Some (bin_count temp a b) else None.
Proof.
  rewrite lookup_groupby_size. unfold bin_count.
  rewrite (list_filter_iff _
             (fun r => Transactions.article_id r.1 = a ∧ row_bin r = Some b)).
  - destruct (filter _ temp); [by rewrite decide_False by (simpl; lia) | by rewrite decide_True].
  - intros r. unfold temp_key. destruct (row_bin r) as [b'|]; simpl;
      [|split; [done | by intros [_ ?]]].
    split; [by intros [= -> ->] | by intros [-> [= ->]]].
Qed.

Lemma lookup_article_totals temp a :
  groupby_size (fun r => Some (Transactions.article_id r.1)) temp !! a
  = if decide (article_total temp a ≠ 0%nat) then Some (article_total temp a) else None.
Proof.
  rewrite lookup_groupby_size. unfold article_total.
  rewrite (list_filter_iff _ (fun r => Transactions.article_id r.1 = a))
    by (intros r; split; [by intros [=] | by intros ->]).
  destruct (filter _ temp); [by rewrite decide_False by (simpl; lia) | by rewrite decide_True].
Qed.

Lemma article_total_elem_of temp a :
  article_total temp a ≠ 0%nat ↔ a ∈ (fun r => Transactions.article_id r.1) <$> temp.
Proof.
  unfold article_total. split.
  - intros Hne. destruct (filter _ temp) as [|r rs] eqn:Hf; [done|].
    assert (r ∈ filter (fun r => Transactions.article_id r.1 = a) temp) as Hr
      by (rewrite Hf; left).
    apply list_elem_of_filter in Hr as [<- Hr]. apply list_elem_of_fmap. by exists r.
  - intros (r & -> & Hr)%list_elem_of_fmap Hz.
    apply length_zero_iff_nil in Hz. by apply (filter_nil_not_elem_of _ _ r Hz).
Qed.

Lemma bin_count_le_total temp a b : (bin_count temp a b <= article_total temp a)%nat.
Proof.
  unfold bin_count, article_total. induction temp as [|r temp IH]; [done|].
  rewrite !filter_cons.
  destruct (decide (Transactions.article_id r.1 = a ∧ row_bin r = Some b)) as [[? ?]|];
    destruct (decide (Transactions.article_id r.1 = a)); simpl; try lia; done.
Qed.

(** The entries of the per-bin table. *)
Lemma lookup_purchase_rate_table observed temp a b :
  purchase_rate_table observed temp !! (a, b)
  = if decide (article_total temp a ≠ 0%nat
               ∧ (observed = false ∨ bin_count temp a b ≠ 0%nat))
    then Some (Some (fraction temp a (bin_count temp a b)))
    else None.
Proof.
  unfold purchase_rate_table, div_level0, reindex_output. rewrite map_lookup_imap.
  cbn [fst]. rewrite lookup_article_totals.
  pose proof (bin_count_le_total temp a b) as Hle. destruct observed.
  - rewrite lookup_sizes.
    destruct (decide (bin_count temp a b ≠ 0%nat)) as [Hc|Hc]; simpl.
    + rewrite decide_True by lia. rewrite decide_True by (split; [lia | by right]). done.
    + rewrite decide_False; [done|]. intros [_ [|]]; done.
  - rewrite lookup_map_of_keys.
    destruct (decide (article_total temp a ≠ 0%nat)) as [Ha|Ha].
    + rewrite decide_True.
      2:{ apply elem_of_pairs. split; [by apply article_total_elem_of|].
          apply elem_of_age_labels. }
      simpl. rewrite decide_True by (split; [done | by left]).
      rewrite lookup_sizes.
      destruct (decide (bin_count temp a b ≠ 0%nat)) as [Hc|Hc]; simpl; [done|].
      unfold fraction. by replace (bin_count temp a b) with 0%nat by lia.
    + rewrite decide_False.
      2:{ intros [Hin _]%elem_of_pairs. by apply article_total_elem_of in Hin. }
      simpl. rewrite decide_False; [done|]. by intros [? _].
Qed.

(** The rows of an article in the per-bin table, in category order. *)
Lemma article_rates_table observed temp a :
  article_total temp a ≠ 0%nat →
  article_rates (purchase_rate_table observed temp) a
  = (fun b => Some (fraction temp a (bin_count temp a b))) <$> grouped_bins observed temp a.
Proof.
  intros Ha. unfold article_rates, grouped_bins.
  rewrite <- omap_decide_filter. apply list_omap_ext. apply Forall2_same_length_lookup_2; [done|].
  intros i b b' Hb Hb'. simplify_eq. rewrite lookup_purchase_rate_table.
  destruct (decide (observed = false ∨ bin_count temp a b ≠ 0%nat)) as [Hg|Hg].
  - by rewrite decide_True.
  - rewrite decide_False; [done|]. by intros [_ ?].
Qed.

Lemma mean_Some {A} (g : A → Q) (l : list A) :
  mean ((fun x => Some (g x)) <$> l)
  = match l with
    | [] => None
    | _ => Some (Qsum (g <$> l) / inject_Z (Z.of_nat (length l)))%Q
    end.
Proof.
  unfold mean. rewrite omap_id_Some. destruct l as [|x l]; [done|].
  csimpl. by rewrite length_fmap.
Qed.

(** The articles that have a row in the per-bin table. *)
Lemma elem_of_table_articles observed temp a :
  a ∈ (fun e => e.1.1) <$> map_to_list (purchase_rate_table observed temp)
  ↔ ∃ b, is_Some (purchase_rate_table observed temp !! (a, b)).
Proof.
  rewrite list_elem_of_fmap. split.
  - intros ([[a' b] v] & -> & Hin). exists b. apply elem_of_map_to_list in Hin. eauto.
  - intros (b & v & Hv). exists (a, b, v). split; [done|]. by apply elem_of_map_to_list.
Qed.

(** The rate merged onto the rows of an article. *)
Lemma lookup_summary observed temp a :
  article_total temp a ≠ 0%nat →
  mjoin (mean_per_article (purchase_rate_table observed temp) !! a)
  = mean_fraction temp a (grouped_bins observed temp a).
Proof.
  intros Ha. unfold mean_per_article. rewrite lookup_map_of_keys.
  rewrite article_rates_table by done. rewrite mean_Some. unfold mean_fraction.
  destruct (grouped_bins observed temp a) as [|b bins] eqn:Hbins.
  - by case_decide.
  - rewrite decide_True; [done|]. apply elem_of_table_articles. exists b.
    assert (b ∈ grouped_bins observed temp a) as Hb by (rewrite Hbins; left).
    apply list_elem_of_filter in Hb as [Hb _].
    rewrite lookup_purchase_rate_table. rewrite decide_True by done. eauto.
Qed.

(** Every transaction has at least one row in the merged table. *)
Lemma temp_data_article (transactions : list Transaction) (customers : list Binned)
    (t : Transaction) :
  t ∈ transactions →
  article_total (temp_data transactions customers) (Transactions.article_id t) ≠ 0%nat.
Proof.
  intros Ht. apply article_total_elem_of. apply list_elem_of_fmap.
  unfold temp_data, merge_left.
  destruct (filter (fun c => Customers.customer_id (cust c) = Transactions.customer_id t)
              customers) as [|c cs] eqn:Hf.
  - exists (t, None). split; [done|]. apply list_elem_of_bind. exists t.
    split; [|done]. rewrite Hf. left.
  - exists (t, Some c). split; [done|]. apply list_elem_of_bind. exists t.
    split; [|done]. rewrite Hf. left.
Qed.

Lemma sum_list_grouped (observed : bool) (f : AgeBin → nat) (l : list AgeBin) :
  sum_list (f <$> filter (fun b => observed = false ∨ f b ≠ 0%nat) l) = sum_list (f <$> l).
Proof.
  induction l as [|b l IH]; [done|]. rewrite filter_cons.
  destruct (decide (observed = false ∨ f b ≠ 0%nat)) as [Hb|Hb]; csimpl; rewrite IH; [done|].
  destruct (decide (f b = 0%nat)); [lia | tauto].
Qed.

(** Every row that has a bin is counted in exactly one of the six bins. *)
Lemma sum_list_bin_counts temp a :
  sum_list (bin_count temp a <$> age_labels) = binned_total temp a.
Proof.
  unfold age_labels, bin_count, binned_total. csimpl.
  induction temp as [|r temp IH]; [done|]. rewrite !filter_cons.
  destruct (decide (Transactions.article_id r.1 = a)) as [Ha|Ha];
    destruct (row_bin r) as [[]|];
    repeat (first [ rewrite decide_True by (split; [done | eauto])
                  | rewrite decide_False by (intros [? ?]; first [done | by eapply is_Some_None]) ]);
    simpl; lia.
Qed.







Lemma binned_plus_unbinned temp a :
  article_total temp a = (binned_total temp a + unbinned_total temp a)%nat.
Proof.
  unfold binned_total, unbinned_total, article_total.
  induction temp as [|r temp IH]; [done|]. rewrite !filter_cons.
  destruct (decide (Transactions.article_id r.1 = a)) as [Ha|Ha];
    destruct (row_bin r) as [b|];
    repeat (first [ rewrite decide_True by (split; [done | eauto])
                  | rewrite decide_False by (intros [? ?]; first [done | by eapply is_Some_None]) ]);
    simpl; lia.
Qed.

(** The rows of the result, in closed form. *)
Lemma purchase_rate_rows (observed : bool) (transactions : list Transaction)
    (customers : list Binned) :
  purchase_rate_per_article_per_age observed transactions customers
  = (fun t =>
       mkRow t
         (mean_fraction (temp_data transactions customers) (Transactions.article_id t)
            (grouped_bins observed (temp_data transactions customers)
               (Transactions.article_id t)))) <$> transactions.
Proof.
  unfold purchase_rate_per_article_per_age, merge_grouped.
  rewrite <- list_fmap_compose. apply list_fmap_ext.
  intros i t Ht%list_elem_of_lookup_2. simpl. f_equal.
  apply lookup_summary. by apply temp_data_article.
Qed.


(** The counts of the grouped bins of an article add up to the number of
    its rows that have a bin. *)
Lemma sum_list_grouped_bins observed temp a :
  sum_list (bin_count temp a <$> grouped_bins observed temp a) = binned_total temp a.
Proof. unfold grouped_bins. by rewrite sum_list_grouped, sum_list_bin_counts. Qed.

(** A bin is grouped for an article as soon as one of its rows has a bin. *)
Lemma grouped_bins_nonempty observed temp a :
  binned_total temp a ≠ 0%nat → grouped_bins observed temp a ≠ [].
Proof.
  intros Hb Hnil. pose proof (sum_list_grouped_bins observed temp a) as Hsum.
  rewrite Hnil in Hsum. simpl in Hsum. done.
Qed.
End PurchaseRateFacts.

(** C2 as stated fails, whichever way the sizes are grouped: with two
    purchases of article 10 by a customer of bin "20-29" and one by an
    unknown customer, the specification's buckets (2/3 for the bin, 1/3 for
    the missing bin) average to 1/2, but the rows get 2/3 (only the bin is
    a bucket) or 1/9 (all six bins are). *)
Lemma purchase_rate_missing_bin_no_bucket :
  let transactions :=
    [mkTransaction (DateTs 0) 1 10; mkTransaction (DateTs 0) 1 10; mkTransaction (DateTs 0) 2 10] in
  let customers := [PurchaseRate.binned 1 Customers.B20_29] in
  let temp := PurchaseRate.temp_data transactions customers in
  ¬ Forall (fun r => PurchaseRate.Qopt_eq (PurchaseRate.purchase_rate r)
                       (PurchaseRate.spec_purchase_rate temp
                          (article_id (PurchaseRate.base r))))
      (PurchaseRate.purchase_rate_per_article_per_age true transactions customers)
  ∧ ¬ Forall (fun r => PurchaseRate.Qopt_eq (PurchaseRate.purchase_rate r)
                         (PurchaseRate.spec_purchase_rate temp
                            (article_id (PurchaseRate.base r))))
        (PurchaseRate.purchase_rate_per_article_per_age false transactions customers).
Proof.
  split; intros Hall; apply Forall_cons_1 in Hall as [Hr _];
    vm_compute in Hr; discriminate.
Qed.

(** C2 (amended).  Every transaction keeps its row, in order, and gets as
    [purchase_rate] the uniform mean, over the bins grouped for its article
    (the bins in which the article has rows; all six bins when the sizes
    list unobserved categories), of the number of the article's merged rows
    in the bin divided by the number of all merged rows of the article; the
    rate is missing when no bin is grouped for the article.  A transaction
    without matching customer is in the merged table with no bin: it counts
    in the total of its article and in no bin. *)
Theorem purchase_rate_mean_over_grouped_bins
    (observed : bool) (transactions : list Transaction) (customers : list Customers.Binned) :
  let temp := PurchaseRate.temp_data transactions customers in
  PurchaseRate.purchase_rate_per_article_per_age observed transactions customers
  = (fun t =>
       PurchaseRate.mkRow t
         (PurchaseRate.mean_fraction temp (article_id t)
            (PurchaseRate.grouped_bins observed temp (article_id t)))) <$> transactions
  ∧ (∀ t, t ∈ transactions →
          (∀ c, c ∈ customers →
                Customers.customer_id (Customers.cust c) ≠ customer_id t) →
          (t, None) ∈ temp ∧ PurchaseRate.row_bin (t, None) = None).
Proof.
  intros temp. split.
  - apply purchase_rate_rows.
  - intros t Ht Hno. split; [|done].
    unfold temp, PurchaseRate.temp_data, merge_left.
    apply list_elem_of_bind. exists t. split; [|done].
    destruct (filter _ customers) as [|c cs] eqn:Hf; [left|].
    assert (c ∈ filter (fun c => Customers.customer_id (Customers.cust c) = customer_id t)
                  customers) as Hc by (rewrite Hf; left).
    apply list_elem_of_filter in Hc as [Heq Hc]. by destruct (Hno c Hc).
Qed.

Lemma purchase_rate_mean_over_grouped_bins_witness :
  let t := mkTransaction (DateTs 0) 2 10 in
  let transactions := [mkTransaction (DateTs 0) 1 10; mkTransaction (DateTs 0) 1 10; t] in
  let customers := [PurchaseRate.binned 1 Customers.B20_29] in
  (t, None) ∈ PurchaseRate.temp_data transactions customers
  ∧ PurchaseRate.row_bin (t, None) = None.
Proof.
  intros t transactions customers.
  apply (proj2 (purchase_rate_mean_over_grouped_bins true transactions customers) t).
  - apply list_elem_of_In. simpl. auto.
  - intros c Hc. apply list_elem_of_singleton in Hc as ->. vm_compute. discriminate.
Defined.




(** * Further properties *)

(** ** The date column: conversion failures *)


(** ** weekly_aggregation: the week column and the weekly counts *)

Section WeeklyMore.
Import Weekly.

Lemma week_end_day_eq (d : Z) : week_end_day d = 7 * ((d + 3) / 7) + 3.
Proof.
  unfold week_end_day, week_start_day, weekday.
  pose proof (Z.div_mod (d + 3) 7). lia.
Qed.

Lemma week_start_day_eq (d : Z) : week_start_day d = 7 * ((d + 3) / 7) - 3.
Proof.
  unfold week_start_day, weekday. pose proof (Z.div_mod (d + 3) 7). lia.
Qed.

Lemma list_min_le (t : Z) (rest : list Z) (x : Z) :
  x ∈ t :: rest → list_min t rest <= x.
Proof.
  unfold list_min. induction rest as [|y rest IH]; simpl.
  - intros Hx%list_elem_of_singleton. lia.
  - intros Hin. assert (x = y ∨ x ∈ t :: rest) as [Hy|Hin'].
    { apply elem_of_cons in Hin as [Hx|Hin]; [right; rewrite Hx; left|].
      apply elem_of_cons in Hin as [Hx|Hin]; [by left | right; by right]. }
    + lia.
    + specialize (IH Hin'). lia.
Qed.

Lemma list_max_ge (t : Z) (rest : list Z) (x : Z) :
  x ∈ t :: rest → x <= list_max t rest.
Proof.
  unfold list_max. induction rest as [|y rest IH]; simpl.
  - intros Hx%list_elem_of_singleton. lia.
  - intros Hin. assert (x = y ∨ x ∈ t :: rest) as [Hy|Hin'].
    { apply elem_of_cons in Hin as [Hx|Hin]; [right; rewrite Hx; left|].
      apply elem_of_cons in Hin as [Hx|Hin]; [by left | right; by right]. }
    + lia.
    + specialize (IH Hin'). lia.
Qed.

Lemma day_of_mono (t1 t2 : Timestamp) : t1 <= t2 → day_of t1 <= day_of t2.
Proof. intros Hle. unfold day_of, ns_per_day. apply Z.div_le_mono; lia. Qed.

(** The label of every row is one of the labels of the counts. *)
Lemma bin_label_elem_of (stamps : list Timestamp) (t : Timestamp) :
  t ∈ stamps → bin_label t ∈ bin_labels stamps.
Proof.
  destruct stamps as [|t0 rest]; [by intros ?%elem_of_nil|]. intros Hin.
  pose proof (day_of_mono _ _ (list_min_le t0 rest t Hin)) as Hlo.
  pose proof (day_of_mono _ _ (list_max_ge t0 rest t Hin)) as Hhi.
  unfold bin_labels, bin_label. rewrite !week_end_day_eq.
  set (L := (day_of (list_min t0 rest) + 3) / 7).
  set (H := (day_of (list_max t0 rest) + 3) / 7).
  set (W := (day_of t + 3) / 7).
  assert (L <= W) by (apply Z.div_le_mono; lia).
  assert (W <= H) by (apply Z.div_le_mono; lia).
  apply list_elem_of_fmap. exists (W - L). split; [f_equal; lia|].
  apply elem_of_seqZ.
  replace (7 * H + 3 - (7 * L + 3)) with ((H - L) * 7) by lia.
  rewrite Z.div_mul by lia. lia.
Qed.

Lemma bin_label_week_of (t1 t2 : Timestamp) :
  bin_label t1 = bin_label t2 ↔ week_of t1 = week_of t2.
Proof.
  unfold bin_label, week_of, week_end_day. split; intros Heq%of_day_inj; f_equal; lia.
Qed.

Lemma length_filter_fmap {A B} (P : B → Prop) `{∀ y, Decision (P y)} (f : A → B) (l : list A) :
  length (filter P (f <$> l)) = length (filter (P ∘ f) l).
Proof.
  induction l as [|x l IH]; [done|]. csimpl. rewrite !filter_cons. unfold compose at 1.
  destruct (decide (P (f x))); simpl; by rewrite IH.
Qed.

Lemma weekly_aggregation_rows (transactions : list Transaction) (out : list Row) :
  weekly_aggregation transactions = Some out ↔
  ∃ df, convert_t_dat transactions = Some df
        ∧ out = (fun r => mkRow r (week_of (ts r)) (resample_size df !! week_of (ts r))) <$> df.
Proof.
  unfold weekly_aggregation. destruct (convert_t_dat transactions) as [df|]; simpl.
  - rewrite zip_with_fmap_r, zip_with_diag. split.
    + intros [= <-]. eauto.
    + intros (df' & [= <-] & ->). done.
  - split; [done | by intros (? & ? & _)].
Qed.
End WeeklyMore.

(** X2.  Whatever the table, when [weekly_aggregation] returns, the
    [weekly_transactions] column is missing on every row. *)
Theorem weekly_transactions_never_filled
    (transactions : list Transaction) (out : list Weekly.Row) :
  Weekly.weekly_aggregation transactions = Some out →
  length out = length transactions
  ∧ Forall (fun r => Weekly.weekly_transactions r = None) out.
Proof.
  intros Hout. split; [|by eapply weekly_transactions_all_missing].
  apply weekly_aggregation_rows in Hout as (df & Hconv & ->).
  rewrite length_fmap. apply convert_t_dat_Some in Hconv.
  symmetry. by eapply Forall2_length.
Qed.

Lemma weekly_transactions_never_filled_witness :
  ∃ out,
    Weekly.weekly_aggregation
      [mkTransaction (DateStr "2024-01-07") 1 10; mkTransaction (DateStr "2024-01-08") 2 11]
    = Some out
    ∧ length out = 2%nat
    ∧ Forall (fun r => Weekly.weekly_transactions r = None) out.
Proof.
  eexists. split; [vm_compute; reflexivity|].
  apply (weekly_transactions_never_filled
           [mkTransaction (DateStr "2024-01-07") 1 10; mkTransaction (DateStr "2024-01-08") 2 11]).
  vm_compute. reflexivity.
Defined.

(** X3.  On every returned row the [week] is midnight of a Monday, the
    row's date lies in the seven days that start there, and the weekly
    counts hold, under the Sunday six days after [week], the number of rows
    of the table that have the same [week]. *)
Theorem weekly_counts_under_sunday
    (transactions : list Transaction) (out : list Weekly.Row) (r : Weekly.Row) :
  Weekly.weekly_aggregation transactions = Some out →
  r ∈ out →
  weekday (day_of (Weekly.week r)) = 0
  ∧ Weekly.week r mod ns_per_day = 0
  ∧ Weekly.week r <= ts (Weekly.base r) < Weekly.week r + 7 * ns_per_day
  ∧ Weekly.resample_size (Weekly.base <$> out) !! (Weekly.week r + 6 * ns_per_day)
    = Some (Z.of_nat (length (filter (fun r' => Weekly.week r' = Weekly.week r) out))).
Proof.
  intros (df & Hconv & ->)%weekly_aggregation_rows
         (r0 & -> & Hr0)%list_elem_of_fmap. simpl.
  rewrite <- list_fmap_compose.
  assert (Weekly.base ∘ (fun r => Weekly.mkRow r (Weekly.week_of (ts r))
                                    (Weekly.resample_size df !! Weekly.week_of (ts r)))
          = id) as -> by done.
  rewrite list_fmap_id. unfold Weekly.week_of, of_day.
  assert (day_of (week_start_day (day_of (ts r0)) * ns_per_day)
          = week_start_day (day_of (ts r0))) as Hday.
  { unfold day_of, ns_per_day. by rewrite Z.div_mul. }
  split; [rewrite Hday; apply weekday_week_start|].
  split; [unfold ns_per_day; by rewrite Z.mod_mul|].
  split.
  { rewrite week_start_day_eq. unfold day_of, ns_per_day.
    pose proof (Z.div_mod (ts r0) 86400000000000).
    pose proof (Z.mod_pos_bound (ts r0) 86400000000000).
    pose proof (Z.div_mod (ts r0 / 86400000000000 + 3) 7).
    pose proof (Z.mod_pos_bound (ts r0 / 86400000000000 + 3) 7). lia. }
  replace (week_start_day (day_of (ts r0)) * ns_per_day + 6 * ns_per_day)
    with (Weekly.bin_label (ts r0))
    by (unfold Weekly.bin_label, week_end_day, of_day; lia).
  unfold Weekly.resample_size. rewrite lookup_map_of_keys.
  rewrite decide_True by (apply bin_label_elem_of; by apply list_elem_of_fmap_2).
  do 2 f_equal. rewrite !length_filter_fmap. f_equal.
  apply list_filter_iff. intros r. unfold compose. simpl.
  by rewrite bin_label_week_of.
Qed.

Lemma weekly_counts_under_sunday_witness :
  let transactions :=
    [mkTransaction (DateStr "2024-01-01") 1 10; mkTransaction (DateStr "2024-01-07") 2 11;
     mkTransaction (DateStr "2024-01-08") 3 12] in
  let monday := of_day (days_from_civil 2024 1 1) in
  let out := [Weekly.mkRow (mkTransaction (DateTs monday) 1 10) monday None;
              Weekly.mkRow (mkTransaction (DateTs (monday + 6 * ns_per_day)) 2 11) monday None;
              Weekly.mkRow (mkTransaction (DateTs (monday + 7 * ns_per_day)) 3 12)
                (monday + 7 * ns_per_day) None] in
  Weekly.resample_size (Weekly.base <$> out) !! (monday + 6 * ns_per_day) = Some 2.
Proof.
  intros transactions monday out.
  apply (weekly_counts_under_sunday transactions out
           (Weekly.mkRow (mkTransaction (DateTs monday) 1 10) monday None)).
  - vm_compute. reflexivity.
  - left.
Defined.


(** ** handle_missing_values: what is kept and what is filled *)

Section MissingValueMore.
Import Customers.

Lemma median_None (col : list (option Q)) :
  median col = None ↔ Forall (fun x => x = None) col.
Proof.
  split.
  - intros Hnone. apply Forall_forall. intros [x|] Hx; [|done].
    destruct (median_is_Some col) as [m Hm]; [eauto|]. congruence.
  - intros Hall. unfold median.
    assert (omap id col = []) as ->; [|done].
    induction Hall as [|x col -> _ IH]; [done|]. by csimpl.
Qed.

(** The median lies between any bounds of the values present. *)
Lemma median_between (col : list (option Q)) (lo hi m : Q) :
  (∀ x, Some x ∈ col → (lo <= x)%Q ∧ (x <= hi)%Q) →
  median col = Some m → (lo <= m)%Q ∧ (m <= hi)%Q.
Proof.
  intros Hcol. unfold median.
  set (vs := merge_sort Qle (omap id col)).
  assert (∀ i x, vs !! i = Some x → (lo <= x)%Q ∧ (x <= hi)%Q) as Hvs.
  { intros i x Hx%list_elem_of_lookup_2. apply Hcol.
    unfold vs in Hx. rewrite merge_sort_Permutation in Hx.
    apply list_elem_of_omap in Hx as (o & Ho & Hid). simpl in Hid. by subst o. }
  destruct (length vs =? 0)%nat; [done|]. destruct (Nat.odd (length vs)).
  - apply Hvs.
  - destruct (vs !! (length vs / 2 - 1)%nat) as [a|] eqn:Ha; [|done].
    destruct (vs !! (length vs / 2)%nat) as [b|] eqn:Hb; [|done].
    simpl. intros [= <-].
    destruct (Hvs _ _ Ha), (Hvs _ _ Hb).
    split; [apply Qle_shift_div_l | apply Qle_shift_div_r]; lra.
Qed.
End MissingValueMore.

(** X4.  [handle_missing_values] is idempotent: normalising a normalised
    table changes nothing, also when every age is missing. *)
Theorem handle_missing_values_idempotent (customers : list Customers.Customer) :
  Customers.handle_missing_values (Customers.handle_missing_values customers)
  = Customers.handle_missing_values customers.
Proof.
  rewrite (handle_missing_values_rows (Customers.handle_missing_values customers)).
  rewrite (handle_missing_values_rows customers). cbv zeta.
  set (med := Customers.median ((fun r => Customers.age r) <$> customers)).
  set (med' := Customers.median _).
  assert (med = None → med' = None) as Hmed.
  { intros Hnone. unfold med'. apply median_None. rewrite !Forall_fmap.
    apply Forall_forall. intros r Hr. unfold compose. simpl. rewrite Hnone.
    unfold med in Hnone. rewrite median_None, Forall_fmap, Forall_forall in Hnone.
    by rewrite (Hnone r Hr). }
  rewrite <- list_fmap_compose. apply list_fmap_ext. intros _ r _. simpl.
  f_equal.
  - by destruct (Customers.FN r).
  - by destruct (Customers.Active r).
  - by destruct (Customers.fashion_news_frequency r).
  - destruct (Customers.age r); simpl; [done|].
    destruct med; simpl; [done|]. by apply Hmed.
  - destruct (Customers.club_member_status r); [done|]. by case_decide.
Qed.

(** X5.  [handle_missing_values] keeps the rows in order with their keys and
    never changes a value that is present; a missing FN or Active becomes
    0, a missing fashion_news_frequency "None", and a missing
    club_member_status "ACTIVE" exactly when the customer's
    fashion_news_frequency was "Regularly", "NON-ACTIVE" otherwise. *)
Theorem handle_missing_values_keeps_present (customers : list Customers.Customer) :
  Forall2 (fun r r' =>
     Customers.customer_id r' = Customers.customer_id r
     ∧ Customers.FN r' = Some (default 0%Q (Customers.FN r))
     ∧ Customers.Active r' = Some (default 0%Q (Customers.Active r))
     ∧ Customers.fashion_news_frequency r'
       = Some (default "None"%string (Customers.fashion_news_frequency r))
     ∧ (∀ a, Customers.age r = Some a → Customers.age r' = Some a)
     ∧ Customers.club_member_status r'
       = Some (default (if decide (Customers.fashion_news_frequency r = Some "Regularly"%string)
                        then "ACTIVE"%string else "NON-ACTIVE"%string)
                 (Customers.club_member_status r)))
    customers (Customers.handle_missing_values customers).
Proof.
  rewrite handle_missing_values_rows. simpl. apply Forall2_fmap_r, Forall_Forall2_diag.
  apply Forall_forall. intros r _. simpl.
  split; [done|]. split; [by destruct (Customers.FN r)|].
  split; [by destruct (Customers.Active r)|].
  split; [by destruct (Customers.fashion_news_frequency r)|].
  split; [by intros a ->|].
  destruct (Customers.club_member_status r); [done|]. simpl.
  destruct (Customers.fashion_news_frequency r) as [s|]; simpl; [|done].
  repeat case_decide; congruence.
Qed.

(** X6.  The ages filled in stay within the range of the ages present:
    bounds that hold for every age of the table hold for every age of the
    result. *)
Theorem handle_missing_values_age_range
    (customers : list Customers.Customer) (lo hi : Q) :
  (∀ r a, r ∈ customers → Customers.age r = Some a → (lo <= a)%Q ∧ (a <= hi)%Q) →
  ∀ r a, r ∈ Customers.handle_missing_values customers →
         Customers.age r = Some a → (lo <= a)%Q ∧ (a <= hi)%Q.
Proof.
  intros Hrange r a. rewrite handle_missing_values_rows. simpl.
  intros (r0 & -> & Hr0)%list_elem_of_fmap. simpl.
  destruct (Customers.age r0) as [a0|] eqn:Ha0; simpl.
  - intros [= <-]. by eapply Hrange.
  - apply median_between. intros x (r1 & Hx & Hr1)%list_elem_of_fmap.
    by eapply Hrange.
Qed.

Lemma handle_missing_values_age_range_witness :
  (31 <= 79 # 2)%Q ∧ (79 # 2 <= 48)%Q.
Proof.
  apply (handle_missing_values_age_range
           [Customers.aged 1 (Some 31%Q); Customers.aged 2 None; Customers.aged 3 (Some 48%Q)]
           31%Q 48%Q) with
    (r := Customers.mkCustomer 2 (Some 0%Q) (Some 0%Q) (Some "None"%string) (Some (79 # 2))
            (Some "NON-ACTIVE"%string)).
  - intros r a Hr Ha.
    apply list_elem_of_In in Hr. simpl in Hr.
    destruct Hr as [<-|[<-|[<-|[]]]]; simpl in Ha; simplify_eq; split; unfold Qle; simpl; lia.
  - vm_compute. right. left.
  - reflexivity.
Defined.

(** ** create_age_bins: every age gets a bin, in order *)

Section AgeBinMore.
Import Customers.

Lemma create_age_bins_row_low (r : Customer) (a : Q) :
  age r = Some a → (a < 20)%Q →
  adjusted_age (create_age_bins_row r) = Some 10%Q
  ∧ age_bin (create_age_bins_row r) = Some B10_19.
Proof.
  intros Ha Hlt. unfold create_age_bins_row, Qlt_bool. rewrite Ha.
  assert (Qle_bool 20 a = false) as ->.
  { apply not_true_is_false. rewrite Qle_bool_iff. lra. }
  assert (Qle_bool 60 a = false) as ->.
  { apply not_true_is_false. rewrite Qle_bool_iff. lra. }
  done.
Qed.

Lemma create_age_bins_row_high (r : Customer) (a : Q) :
  age r = Some a → (60 <= a)%Q →
  adjusted_age (create_age_bins_row r) = Some 60%Q
  ∧ age_bin (create_age_bins_row r) = Some B60_plus.
Proof.
  intros Ha Hge. unfold create_age_bins_row, Qlt_bool. rewrite Ha.
  assert (Qle_bool 60 a = true) as -> by by apply Qle_bool_iff.
  by destruct (negb (Qle_bool 20 a)).
Qed.

(** The position of the bin among the six categories is the number of
    edges reached. *)
Lemma age_bin_code (r : Customer) (a : Q) :
  age r = Some a →
  ∃ b, age_bin (create_age_bins_row r) = Some b ∧ AgeBin_code b = edges_reached a.
Proof.
  intros Ha.
  assert (∀ x y : Q, (x <= y)%Q → Qle_bool y a = true → Qle_bool x a = true) as Hdown.
  { intros x y Hxy Hy%Qle_bool_iff. apply Qle_bool_iff. lra. }
  assert (∀ x y : Q, (x <= y)%Q → Qle_bool x a = false → Qle_bool y a = false) as Hup.
  { intros x y Hxy Hx. apply not_true_is_false. intros Hy. by rewrite (Hdown x y) in Hx. }
  unfold edges_reached. rewrite !filter_cons, filter_nil.
  destruct (Qlt_le_dec a 20) as [Hlt|Hge20].
  { destruct (create_age_bins_row_low r a Ha Hlt) as [_ ->]. eexists; split; [done|].
    assert (Qle_bool 20 a = false) as H20.
    { apply not_true_is_false. rewrite Qle_bool_iff. lra. }
    rewrite H20, (Hup 20%Q 29%Q ltac:(lra) H20), (Hup 20%Q 39%Q ltac:(lra) H20),
      (Hup 20%Q 49%Q ltac:(lra) H20), (Hup 20%Q 59%Q ltac:(lra) H20). done. }
  destruct (Qlt_le_dec a 60) as [Hlt60|Hge60].
  2:{ destruct (create_age_bins_row_high r a Ha Hge60) as [_ ->]. eexists; split; [done|].
      assert (Qle_bool 60 a = true) as H60 by by apply Qle_bool_iff.
      rewrite (Hdown 20%Q 60%Q ltac:(lra) H60), (Hdown 29%Q 60%Q ltac:(lra) H60),
        (Hdown 39%Q 60%Q ltac:(lra) H60), (Hdown 49%Q 60%Q ltac:(lra) H60),
        (Hdown 59%Q 60%Q ltac:(lra) H60). done. }
  destruct (create_age_bins_row_edges r a Ha Hge20 Hlt60) as [_ ->].
  eexists; split; [done|]. unfold Qlt_bool.
  assert (Qle_bool 20 a = true) as -> by by apply Qle_bool_iff.
  destruct (Qle_bool 29 a) eqn:H29; simpl.
  2:{ rewrite (Hup 29%Q 39%Q ltac:(lra) H29), (Hup 29%Q 49%Q ltac:(lra) H29),
        (Hup 29%Q 59%Q ltac:(lra) H29). done. }
  destruct (Qle_bool 39 a) eqn:H39; simpl.
  2:{ rewrite (Hup 39%Q 49%Q ltac:(lra) H39), (Hup 39%Q 59%Q ltac:(lra) H39). done. }
  destruct (Qle_bool 49 a) eqn:H49; simpl.
  2:{ rewrite (Hup 49%Q 59%Q ltac:(lra) H49). done. }
  by destruct (Qle_bool 59 a) eqn:H59.
Qed.

Lemma edges_reached_mono (a a' : Q) : (a <= a')%Q → (edges_reached a <= edges_reached a')%nat.
Proof.
  intros Hle. unfold edges_reached.
  induction [20; 29; 39; 49; 59]%Q as [|e es IH]; [done|].
  rewrite !filter_cons.
  destruct (decide (Qle_bool e a = true)) as [He|He].
  - rewrite decide_True; [simpl; lia|].
    apply Qle_bool_iff. apply Qle_bool_iff in He. lra.
  - destruct (decide (Qle_bool e a' = true)); simpl; lia.
Qed.
End AgeBinMore.

(** X7.  Every customer with a numeric age gets an adjusted age between 10
    and 60 and one of the six bins: an age below 20 is moved to 10 and
    binned "10-19", an age of 60 or more is moved to 60 and binned "60+",
    any other age is kept. *)
Theorem create_age_bins_total (r : Customers.Customer) (a : Q) :
  Customers.age r = Some a →
  ∃ a' b,
    Customers.adjusted_age (Customers.create_age_bins_row r) = Some a'
    ∧ Customers.age_bin (Customers.create_age_bins_row r) = Some b
    ∧ (10 <= a')%Q ∧ (a' <= 60)%Q
    ∧ ((a < 20)%Q → a' = 10%Q ∧ b = Customers.B10_19)
    ∧ ((60 <= a)%Q → a' = 60%Q ∧ b = Customers.B60_plus)
    ∧ ((20 <= a)%Q → (a < 60)%Q → a' = a).
Proof.
  intros Ha. destruct (Qlt_le_dec a 20) as [Hlt|Hge20].
  { destruct (create_age_bins_row_low r a Ha Hlt) as [-> ->].
    eexists _, _. repeat split; try done; intros; lra. }
  destruct (Qlt_le_dec a 60) as [Hlt60|Hge60].
  - destruct (create_age_bins_row_edges r a Ha Hge20 Hlt60) as [-> ->].
    eexists _, _. repeat split; try done; try lra; intros; lra.
  - destruct (create_age_bins_row_high r a Ha Hge60) as [-> ->].
    eexists _, _. repeat split; try done; intros; lra.
Qed.

Lemma create_age_bins_total_witness :
  ∃ a' b,
    Customers.adjusted_age (Customers.create_age_bins_row (Customers.aged 1 (Some 17%Q))) = Some a'
    ∧ Customers.age_bin (Customers.create_age_bins_row (Customers.aged 1 (Some 17%Q))) = Some b
    ∧ (10 <= a')%Q ∧ (a' <= 60)%Q
    ∧ ((17 < 20)%Q → a' = 10%Q ∧ b = Customers.B10_19)
    ∧ ((60 <= 17)%Q → a' = 60%Q ∧ b = Customers.B60_plus)
    ∧ ((20 <= 17)%Q → (17 < 60)%Q → a' = 17%Q).
Proof. apply (create_age_bins_total (Customers.aged 1 (Some 17%Q)) 17%Q). reflexivity. Defined.

(** X8.  The binning is monotone: of two customers, the older one never
    gets an earlier bin. *)
Theorem create_age_bins_monotone (r r' : Customers.Customer) (a a' : Q) :
  Customers.age r = Some a → Customers.age r' = Some a' → (a <= a')%Q →
  ∃ b b',
    Customers.age_bin (Customers.create_age_bins_row r) = Some b
    ∧ Customers.age_bin (Customers.create_age_bins_row r') = Some b'
    ∧ (Customers.AgeBin_code b <= Customers.AgeBin_code b')%nat.
Proof.
  intros Ha Ha' Hle.
  destruct (age_bin_code r a Ha) as (b & Hb & Hc).
  destruct (age_bin_code r' a' Ha') as (b' & Hb' & Hc').
  exists b, b'. split; [done|]. split; [done|].
  rewrite Hc, Hc'. by apply edges_reached_mono.
Qed.

Lemma create_age_bins_monotone_witness :
  ∃ b b',
    Customers.age_bin (Customers.create_age_bins_row (Customers.aged 1 (Some 29%Q))) = Some b
    ∧ Customers.age_bin (Customers.create_age_bins_row (Customers.aged 2 (Some (59 # 2)))) = Some b'
    ∧ (Customers.AgeBin_code b <= Customers.AgeBin_code b')%nat.
Proof.
  apply (create_age_bins_monotone (Customers.aged 1 (Some 29%Q))
           (Customers.aged 2 (Some (59 # 2))) 29%Q (59 # 2)); [reflexivity..|].
  unfold Qle. simpl. lia.
Defined.

(** ** calculate_elapsed_days: what the two columns hold *)

Section ElapsedMore.
Import Elapsed.

Lemma reduce_max_spec (l : list Z) (m : Z) :
  reduce Z.max l = Some m → m ∈ l ∧ ∀ x, x ∈ l → x <= m.
Proof.
  revert m. induction l as [|y l IH]; [done|]. simpl. intros m [= <-].
  destruct (reduce Z.max l) as [m'|] eqn:Hm'.
  - destruct (IH m' eq_refl) as [Hin Hmax]. split.
    + destruct (Z.max_spec y m') as [[_ ->]|[_ ->]]; [by right | left].
    + intros x [->|Hx]%elem_of_cons; [lia|]. specialize (Hmax x Hx). lia.
  - destruct l; [|done]. split; [left|].
    intros x ->%list_elem_of_singleton. lia.
Qed.

Lemma reduce_min_spec (l : list Z) (m : Z) :
  reduce Z.min l = Some m → m ∈ l ∧ ∀ x, x ∈ l → m <= x.
Proof.
  revert m. induction l as [|y l IH]; [done|]. simpl. intros m [= <-].
  destruct (reduce Z.min l) as [m'|] eqn:Hm'.
  - destruct (IH m' eq_refl) as [Hin Hmin]. split.
    + destruct (Z.min_spec y m') as [[_ ->]|[_ ->]]; [left | by right].
    + intros x [->|Hx]%elem_of_cons; [lia|]. specialize (Hmin x Hx). lia.
  - destruct l; [|done]. split; [left|].
    intros x ->%list_elem_of_singleton. lia.
Qed.

Lemma days_between_shift (reference_date t k : Z) :
  days_between (reference_date + k * ns_per_day) t = days_between reference_date t + k.
Proof.
  unfold days_between, ns_per_day.
  replace (reference_date + k * 86400000000000 - t)
    with (reference_date - t + k * 86400000000000) by lia.
  by rewrite Z.div_add.
Qed.

(** The two columns of a row of the result, read off the converted table. *)
Lemma elapsed_rows_meaning (reference_date : Timestamp) (df : list Transaction) (r : Row) :
  r ∈ elapsed_rows reference_date df →
  base r ∈ df
  ∧ ∃ last_purchase first_sell,
      elapsed_days_since_last_purchase r = Some (days_between reference_date last_purchase)
      ∧ elapsed_days_since_first_sell r = Some (days_between reference_date first_sell)
      ∧ (∃ r', r' ∈ df ∧ customer_id r' = customer_id (base r) ∧ ts r' = last_purchase)
      ∧ (∀ r', r' ∈ df → customer_id r' = customer_id (base r) → ts r' <= last_purchase)
      ∧ (∃ r', r' ∈ df ∧ article_id r' = article_id (base r) ∧ ts r' = first_sell)
      ∧ (∀ r', r' ∈ df → article_id r' = article_id (base r) → first_sell <= ts r').
Proof.
  unfold elapsed_rows. intros (r0 & -> & Hr0)%list_elem_of_fmap. simpl.
  split; [done|].
  destruct (reduce_max_ge (ts <$> filter (fun r' => customer_id r' = customer_id r0) df) (ts r0))
    as (M & HM & _).
  { apply list_elem_of_fmap_2, list_elem_of_filter. done. }
  destruct (reduce_min_le (ts <$> filter (fun r' => article_id r' = article_id r0) df) (ts r0))
    as (m & Hm & _).
  { apply list_elem_of_fmap_2, list_elem_of_filter. done. }
  rewrite HM, Hm. simpl. exists M, m. split; [done|]. split; [done|].
  apply reduce_max_spec in HM as [(r1 & HM1 & [Hc1 Hr1]%list_elem_of_filter)%list_elem_of_fmap HMle].
  apply reduce_min_spec in Hm as [(r2 & Hm2 & [Hc2 Hr2]%list_elem_of_filter)%list_elem_of_fmap Hmle].
  split; [by exists r1|]. split.
  { intros r' Hr' Hc'. apply HMle. apply list_elem_of_fmap_2, list_elem_of_filter. done. }
  split; [by exists r2|].
  intros r' Hr' Hc'. apply Hmle. apply list_elem_of_fmap_2, list_elem_of_filter. done.
Qed.
End ElapsedMore.

(** X9.  Moving the reference date by [k] whole days moves both elapsed-day
    columns by [k] on every row and changes nothing else. *)
Theorem calculate_elapsed_days_shift
    (today : Timestamp) (data : list Transaction) (reference_date k : Z)
    (data' : list Transaction) (out : list Elapsed.Row) :
  Elapsed.calculate_elapsed_days today data (Some reference_date) = Some (data', out) →
  Elapsed.calculate_elapsed_days today data (Some (reference_date + k * ns_per_day))
  = Some (data',
          (fun r => Elapsed.mkRow (Elapsed.base r)
                      ((fun d => d + k) <$> Elapsed.elapsed_days_since_last_purchase r)
                      ((fun d => d + k) <$> Elapsed.elapsed_days_since_first_sell r)) <$> out).
Proof.
  rewrite !calculate_elapsed_days_unfold. simpl.
  destruct (convert_t_dat data) as [df|]; [|done]. simpl. intros [= <- <-].
  do 2 f_equal. unfold Elapsed.elapsed_rows. rewrite <- list_fmap_compose.
  apply list_fmap_ext. intros _ r _. simpl.
  f_equal; rewrite <- option_fmap_compose; apply option_fmap_ext;
    intros t; simpl; apply days_between_shift.
Qed.

Lemma calculate_elapsed_days_shift_witness :
  let data := [mkTransaction (DateStr "2024-01-01") 1 10;
               mkTransaction (DateStr "2024-01-05") 1 11] in
  let reference_date := of_day (days_from_civil 2024 1 10) in
  let df := [mkTransaction (DateTs (of_day (days_from_civil 2024 1 1))) 1 10;
             mkTransaction (DateTs (of_day (days_from_civil 2024 1 5))) 1 11] in
  Elapsed.calculate_elapsed_days 0 data (Some (reference_date + 3 * ns_per_day))
  = Some (df,
          (fun r => Elapsed.mkRow (Elapsed.base r)
                      ((fun d => d + 3) <$> Elapsed.elapsed_days_since_last_purchase r)
                      ((fun d => d + 3) <$> Elapsed.elapsed_days_since_first_sell r))
            <$> Elapsed.elapsed_rows reference_date df).
Proof.
  intros data reference_date df.
  apply (calculate_elapsed_days_shift 0 data reference_date 3).
  vm_compute. reflexivity.
Defined.

(** X10.  On every returned row, [elapsed_days_since_last_purchase] is the
    number of whole days from the latest date among the rows of the same
    customer to the reference date, and [elapsed_days_since_first_sell] the
    number from the earliest date among the rows of the same article; the
    row itself is a row of the converted table. *)
Theorem calculate_elapsed_days_columns
    (today : Timestamp) (data : list Transaction) (reference_date : option Timestamp)
    (data' : list Transaction) (out : list Elapsed.Row) (r : Elapsed.Row) :
  Elapsed.calculate_elapsed_days today data reference_date = Some (data', out) →
  r ∈ out →
  Elapsed.base r ∈ data'
  ∧ ∃ last_purchase first_sell,
      Elapsed.elapsed_days_since_last_purchase r
      = Some (Elapsed.days_between (default today reference_date) last_purchase)
      ∧ Elapsed.elapsed_days_since_first_sell r
        = Some (Elapsed.days_between (default today reference_date) first_sell)
      ∧ (∃ r', r' ∈ data' ∧ customer_id r' = customer_id (Elapsed.base r)
               ∧ ts r' = last_purchase)
      ∧ (∀ r', r' ∈ data' → customer_id r' = customer_id (Elapsed.base r)
               → ts r' <= last_purchase)
      ∧ (∃ r', r' ∈ data' ∧ article_id r' = article_id (Elapsed.base r)
               ∧ ts r' = first_sell)
      ∧ (∀ r', r' ∈ data' → article_id r' = article_id (Elapsed.base r)
               → first_sell <= ts r').
Proof.
  rewrite calculate_elapsed_days_unfold.
  destruct (convert_t_dat data) as [df|]; [|done]. simpl. intros [= <- <-].
  apply elapsed_rows_meaning.
Qed.

Lemma calculate_elapsed_days_columns_witness :
  let data := [mkTransaction (DateStr "2024-01-01") 1 10;
               mkTransaction (DateStr "2024-01-05") 1 11] in
  let df := [mkTransaction (DateTs (of_day (days_from_civil 2024 1 1))) 1 10;
             mkTransaction (DateTs (of_day (days_from_civil 2024 1 5))) 1 11] in
  let r := Elapsed.mkRow (mkTransaction (DateTs (of_day (days_from_civil 2024 1 1))) 1 10)
             (Some 5) (Some 9) in
  Elapsed.base r ∈ df.
Proof.
  intros data df r.
  apply (calculate_elapsed_days_columns 0 data (Some (of_day (days_from_civil 2024 1 10)))
           df (Elapsed.elapsed_rows (of_day (days_from_civil 2024 1 10)) df) r).
  - vm_compute. reflexivity.
  - vm_compute. left.
Defined.

(** X11.  When the reference date is not before any date of the table, no
    elapsed-day value is negative. *)
Theorem calculate_elapsed_days_nonnegative
    (today : Timestamp) (data : list Transaction) (reference_date : Timestamp)
    (data' : list Transaction) (out : list Elapsed.Row) :
  Elapsed.calculate_elapsed_days today data (Some reference_date) = Some (data', out) →
  (∀ r, r ∈ data' → ts r <= reference_date) →
  Forall (fun r => ∃ l f,
            Elapsed.elapsed_days_since_last_purchase r = Some l
            ∧ Elapsed.elapsed_days_since_first_sell r = Some f
            ∧ 0 <= l ∧ 0 <= f) out.
Proof.
  rewrite calculate_elapsed_days_unfold.
  destruct (convert_t_dat data) as [df|]; [|done]. simpl. intros [= <- <-] Hbefore.
  apply Forall_forall. intros r Hr.
  apply elapsed_rows_meaning in Hr
    as (_ & M & m & -> & -> & (r1 & Hr1 & _ & <-) & _ & (r2 & Hr2 & _ & <-) & _).
  eexists _, _. split; [done|]. split; [done|].
  unfold Elapsed.days_between, ns_per_day.
  split; apply Z.div_pos; try lia.
  - specialize (Hbefore r1 Hr1). lia.
  - specialize (Hbefore r2 Hr2). lia.
Qed.

Lemma calculate_elapsed_days_nonnegative_witness :
  let data := [mkTransaction (DateStr "2024-01-01") 1 10;
               mkTransaction (DateStr "2024-01-05") 1 11] in
  let reference_date := of_day (days_from_civil 2024 1 5) in
  let df := [mkTransaction (DateTs (of_day (days_from_civil 2024 1 1))) 1 10;
             mkTransaction (DateTs (of_day (days_from_civil 2024 1 5))) 1 11] in
  Forall (fun r => ∃ l f,
            Elapsed.elapsed_days_since_last_purchase r = Some l
            ∧ Elapsed.elapsed_days_since_first_sell r = Some f
            ∧ 0 <= l ∧ 0 <= f) (Elapsed.elapsed_rows reference_date df).
Proof.
  intros data reference_date df.
  apply (calculate_elapsed_days_nonnegative 0 data reference_date df).
  - vm_compute. reflexivity.
  - intros r Hr. apply list_elem_of_In in Hr. simpl in Hr.
    destruct Hr as [<-|[<-|[]]]; vm_compute; discriminate.
Defined.

(** ** get_top_product_groups: how many groups are kept *)

Section TopGroupMore.
Import TopGroups.

Local Abbreviation ranked d :=
  (sort_values_desc
     (reset_index (groupby_reduce Z.add (fun r => Some (product_group r))
                     transaction_count d))).

Lemma filter_all {A} (P : A → Prop) `{∀ x, Decision (P x)} (l : list A) :
  (∀ x, x ∈ l → P x) → filter P l = l.
Proof.
  induction l as [|x l IH]; [done|]. intros Hall. rewrite filter_cons.
  rewrite decide_True by (apply Hall; left). f_equal. apply IH.
  intros y Hy. apply Hall. by right.
Qed.

Lemma ranked_keys (d : list Row) : (ranked d).*1 ≡ₚ groups d.
Proof.
  apply NoDup_Permutation.
  - unfold sort_values_desc, reset_index. rewrite !merge_sort_Permutation.
    apply NoDup_fst_map_to_list.
  - apply NoDup_remove_dups.
  - intros g. unfold groups. rewrite elem_of_remove_dups. split.
    + intros ([g' v] & -> & Hin)%list_elem_of_fmap. by apply elem_of_ranked in Hin as [? _].
    + intros Hg. apply list_elem_of_fmap. exists (g, group_total d g). split; [done|].
      by apply elem_of_ranked.
Qed.

Lemma top_set_NoDup (d : list Row) (n : Z) : NoDup (top_set d n).
Proof.
  unfold top_set. destruct (head_take n (ranked d)) as [k ->].
  rewrite fmap_take. eapply sublist_NoDup; [|apply sublist_take].
  rewrite ranked_keys. apply NoDup_remove_dups.
Qed.

Lemma top_set_groups (d : list Row) (n : Z) (g : string) :
  g ∈ top_set d n → g ∈ product_group <$> d.
Proof.
  unfold top_set. destruct (head_take n (ranked d)) as [k ->].
  intros ([g' v] & -> & Hin)%list_elem_of_fmap.
  assert ((g', v) ∈ ranked d) as Hr
    by (rewrite <- (take_drop k (ranked d)); apply elem_of_app; by left).
  by apply elem_of_ranked in Hr as [? _].
Qed.

Lemma groups_top (d : list Row) (n : Z) :
  groups (get_top_product_groups d n) ≡ₚ top_set d n.
Proof.
  apply NoDup_Permutation; [apply NoDup_remove_dups | apply top_set_NoDup |].
  intros g. unfold groups. rewrite elem_of_remove_dups.
  unfold get_top_product_groups. fold (top_set d n). split.
  - intros (r & -> & [Hr _]%list_elem_of_filter)%list_elem_of_fmap. done.
  - intros Hg. pose proof (top_set_groups d n g Hg) as Hin.
    apply list_elem_of_fmap in Hin as (r & Heq & Hr).
    apply list_elem_of_fmap. exists r. split; [done|].
    apply list_elem_of_filter. by rewrite <- Heq.
Qed.

Lemma length_head {A} (n : Z) (rows : list A) :
  length (head n rows)
  = if 0 <=? n then Nat.min (Z.to_nat n) (length rows)
    else (length rows - Z.to_nat (- n))%nat.
Proof. unfold head. destruct (0 <=? n); rewrite length_take; lia. Qed.

Lemma length_groups_top (d : list Row) (n : Z) :
  length (groups (get_top_product_groups d n))
  = if 0 <=? n then Nat.min (Z.to_nat n) (length (groups d))
    else (length (groups d) - Z.to_nat (- n))%nat.
Proof.
  rewrite groups_top. unfold top_set. rewrite length_fmap, length_head.
  assert (length (groups d) = length (ranked d)) as ->; [|done].
  by rewrite <- (ranked_keys d), length_fmap.
Qed.

(** Nothing is filtered out when all groups are selected. *)
Lemma get_top_all (d : list Row) (n : Z) :
  (length (groups d) <= Z.to_nat n)%nat → 0 <= n → get_top_product_groups d n = d.
Proof.
  intros Hn Hpos. unfold get_top_product_groups. apply filter_all. intros r Hr.
  unfold head. rewrite (proj2 (Z.leb_le 0 n)) by done.
  rewrite take_ge by (rewrite <- (length_fmap fst), ranked_keys; lia).
  rewrite ranked_keys. unfold groups. rewrite elem_of_remove_dups.
  by apply list_elem_of_fmap_2.
Qed.
End TopGroupMore.

(** X12.  The number of distinct product groups in the result is the
    smaller of N and the number of groups of the input when N is not
    negative, and the number of groups of the input less |N| (or 0) when N
    is negative. *)
Theorem get_top_product_groups_group_count (grouped_data : list TopGroups.Row) (top_n : Z) :
  length (TopGroups.groups (TopGroups.get_top_product_groups grouped_data top_n))
  = if 0 <=? top_n
    then Nat.min (Z.to_nat top_n) (length (TopGroups.groups grouped_data))
    else (length (TopGroups.groups grouped_data) - Z.to_nat (- top_n))%nat.
Proof. apply length_groups_top. Qed.

(** X13.  The result keeps the rows of the input in their order, and keeps
    a product group whole or not at all: an input row whose group has a row
    in the result is in the result. *)
Theorem get_top_product_groups_whole_groups
    (grouped_data : list TopGroups.Row) (top_n : Z) (r r' : TopGroups.Row) :
  r ∈ TopGroups.get_top_product_groups grouped_data top_n →
  r' ∈ grouped_data →
  TopGroups.product_group r' = TopGroups.product_group r →
  r' ∈ TopGroups.get_top_product_groups grouped_data top_n
  ∧ TopGroups.get_top_product_groups grouped_data top_n `sublist_of` grouped_data.
Proof.
  unfold TopGroups.get_top_product_groups.
  intros [Hr _]%list_elem_of_filter Hr' Heq. split; [|apply sublist_filter].
  apply list_elem_of_filter. by rewrite Heq.
Qed.

Lemma get_top_product_groups_whole_groups_witness :
  let grouped_data :=
    [TopGroups.mkRow 0 "b" 3; TopGroups.mkRow 0 "a" 3; TopGroups.mkRow 1 "c" 5;
     TopGroups.mkRow 1 "a" 1; TopGroups.mkRow 1 "d" 4] in
  TopGroups.mkRow 1 "a" 1 ∈ TopGroups.get_top_product_groups grouped_data 2
  ∧ TopGroups.get_top_product_groups grouped_data 2 `sublist_of` grouped_data.
Proof.
  intros grouped_data.
  apply (get_top_product_groups_whole_groups grouped_data 2
           (TopGroups.mkRow 0 "a" 3) (TopGroups.mkRow 1 "a" 1)).
  - vm_compute. left.
  - do 3 right. left.
  - reflexivity.
Defined.

(** X14.  When N is at least the number of distinct product groups, the
    filter returns the table unchanged. *)
Theorem get_top_product_groups_all (grouped_data : list TopGroups.Row) (top_n : Z) :
  Z.of_nat (length (TopGroups.groups grouped_data)) <= top_n →
  TopGroups.get_top_product_groups grouped_data top_n = grouped_data.
Proof. intros Hn. apply get_top_all; lia. Qed.

Lemma get_top_product_groups_all_witness :
  TopGroups.get_top_product_groups
    [TopGroups.mkRow 0 "b" 3; TopGroups.mkRow 0 "a" 3; TopGroups.mkRow 1 "a" 1] 2
  = [TopGroups.mkRow 0 "b" 3; TopGroups.mkRow 0 "a" 3; TopGroups.mkRow 1 "a" 1].
Proof.
  apply (get_top_product_groups_all
           [TopGroups.mkRow 0 "b" 3; TopGroups.mkRow 0 "a" 3; TopGroups.mkRow 1 "a" 1] 2).
  vm_compute. discriminate.
Defined.

(** X15.  For N not negative the filter is idempotent: filtering the result
    again with the same N changes nothing. *)
Theorem get_top_product_groups_idempotent (grouped_data : list TopGroups.Row) (top_n : Z) :
  0 <= top_n →
  TopGroups.get_top_product_groups
    (TopGroups.get_top_product_groups grouped_data top_n) top_n
  = TopGroups.get_top_product_groups grouped_data top_n.
Proof.
  intros Hn. apply get_top_all; [|done].
  rewrite length_groups_top. rewrite (proj2 (Z.leb_le 0 top_n)) by done. lia.
Qed.

Lemma get_top_product_groups_idempotent_witness :
  let grouped_data :=
    [TopGroups.mkRow 0 "b" 3; TopGroups.mkRow 0 "a" 3; TopGroups.mkRow 1 "c" 5;
     TopGroups.mkRow 1 "a" 1; TopGroups.mkRow 1 "d" 4] in
  TopGroups.get_top_product_groups (TopGroups.get_top_product_groups grouped_data 2) 2
  = TopGroups.get_top_product_groups grouped_data 2.
Proof.
  intros grouped_data. apply (get_top_product_groups_idempotent grouped_data 2). lia.
Defined.

(** ** purchase_rate_per_article_per_age: rows and the fully binned case *)

(** X16.  The result has exactly the transaction rows, in order, also when
    the customer table repeats a customer, and two rows of the same article
    carry the same [purchase_rate]. *)
Theorem purchase_rate_broadcast
    (observed : bool) (transactions : list Transaction) (customers : list Customers.Binned) :
  PurchaseRate.base
    <$> PurchaseRate.purchase_rate_per_article_per_age observed transactions customers
  = transactions
  ∧ ∀ r r',
      r ∈ PurchaseRate.purchase_rate_per_article_per_age observed transactions customers →
      r' ∈ PurchaseRate.purchase_rate_per_article_per_age observed transactions customers →
      article_id (PurchaseRate.base r) = article_id (PurchaseRate.base r') →
      PurchaseRate.purchase_rate r = PurchaseRate.purchase_rate r'.
Proof.
  rewrite purchase_rate_rows. split.
  - rewrite <- list_fmap_compose. apply list_fmap_id.
  - intros r r' (t & -> & _)%list_elem_of_fmap (t' & -> & _)%list_elem_of_fmap. simpl.
    by intros ->.
Qed.

Lemma purchase_rate_broadcast_witness :
  let transactions :=
    [mkTransaction (DateTs 0) 1 10; mkTransaction (DateTs 0) 2 10; mkTransaction (DateTs 0) 1 11] in
  let customers := [PurchaseRate.binned 1 Customers.B20_29; PurchaseRate.binned 1 Customers.B20_29] in
  PurchaseRate.purchase_rate (PurchaseRate.mkRow (mkTransaction (DateTs 0) 1 10) (Some (2 # 3)))
  = PurchaseRate.purchase_rate (PurchaseRate.mkRow (mkTransaction (DateTs 0) 2 10) (Some (2 # 3))).
Proof.
  intros transactions customers.
  apply (proj2 (purchase_rate_broadcast true transactions customers)).
  - vm_compute. left.
  - vm_compute. right. left.
  - reflexivity.
Defined.

(** X17.  For an article none of whose merged rows lacks an age bin, at
    least one bin is grouped, the [purchase_rate] of its transactions is
    present, and the counts of the grouped bins add up to the number of the
    article's merged rows, by which each of them is divided. *)
Theorem purchase_rate_all_binned
    (observed : bool) (transactions : list Transaction) (customers : list Customers.Binned)
    (r : PurchaseRate.Row) :
  let temp := PurchaseRate.temp_data transactions customers in
  let a := article_id (PurchaseRate.base r) in
  let bins := PurchaseRate.grouped_bins observed temp a in
  r ∈ PurchaseRate.purchase_rate_per_article_per_age observed transactions customers →
  PurchaseRate.unbinned_total temp a = 0%nat →
  bins ≠ []
  ∧ is_Some (PurchaseRate.purchase_rate r)
  ∧ sum_list (PurchaseRate.bin_count temp a <$> bins) = PurchaseRate.article_total temp a.
Proof.
  intros temp a bins. subst a bins. rewrite purchase_rate_rows. fold temp.
  intros (t & -> & Ht)%list_elem_of_fmap. simpl in *. intros Hnone.
  pose proof (temp_data_article transactions customers t Ht) as Ha. fold temp in Ha.
  pose proof (binned_plus_unbinned temp (article_id t)) as Hall.
  rewrite Hnone, Nat.add_0_r in Hall.
  assert (PurchaseRate.grouped_bins observed temp (article_id t) ≠ []) as Hne.
  { apply grouped_bins_nonempty. by rewrite <- Hall. }
  split; [exact Hne|]. split.
  - unfold PurchaseRate.mean_fraction.
    destruct (PurchaseRate.grouped_bins observed temp (article_id t)); [done | eauto].
  - by rewrite sum_list_grouped_bins.
Qed.

Lemma purchase_rate_all_binned_witness :
  let transactions :=
    [mkTransaction (DateTs 0) 1 10; mkTransaction (DateTs 0) 1 10; mkTransaction (DateTs 0) 2 10] in
  let customers := [PurchaseRate.binned 1 Customers.B20_29; PurchaseRate.binned 2 Customers.B40_49] in
  let temp := PurchaseRate.temp_data transactions customers in
  PurchaseRate.grouped_bins true temp 10 ≠ []
  ∧ is_Some (Some (9 # 18)%Q)
  ∧ sum_list (PurchaseRate.bin_count temp 10 <$> PurchaseRate.grouped_bins true temp 10)
    = PurchaseRate.article_total temp 10.
Proof.
  intros transactions customers temp.
  apply (purchase_rate_all_binned true transactions customers
           (PurchaseRate.mkRow (mkTransaction (DateTs 0) 1 10) (Some (9 # 18)))).
  - vm_compute. left.
  - vm_compute. reflexivity.
Defined.

(** ** load_best_hyperparameters: what is printed *)

(** X18.  [load_best_hyperparameters] prints nothing when the file is
    missing and when it returns parameters; it prints exactly when the file
    exists and reading it or taking its first row raises, and then it
    prints one line that names the directory and the error and returns an
    absent result. *)
Theorem load_best_hyperparameters_printed (w : Hyper.World) (group_output_dir : string) :
  let path := Hyper.path_join group_output_dir "best_hyperparameters.csv" in
  let result := (Hyper.load_best_hyperparameters w group_output_dir).1 in
  let printed := (Hyper.load_best_hyperparameters w group_output_dir).2 in
  (printed = [] ↔ Hyper.path_exists w path = false ∨ is_Some result)
  ∧ (printed = []
     ∨ result = None
       ∧ ∃ e, printed
              = [("Error loading best hyperparameters for " ++ group_output_dir ++ ": " ++ e)%string]).
Proof.
  simpl. unfold Hyper.load_best_hyperparameters.
  destruct (Hyper.path_exists w _); simpl; [|split; [split; auto | by left]].
  destruct (Hyper.read_csv w _) as [df|e]; simpl.
  - unfold Hyper.iloc0. destruct (Hyper.rows df); simpl.
    + split; [|right; eauto]. split; [done|]. by intros [|[? ?]].
    + split; [|by left]. split; eauto.
  - split; [|right; eauto]. split; [done|]. by intros [|[? ?]].
Qed.

(** ** create_grouped_data: the roll-up by date and product group *)

Section GroupedDataFacts.
Import GroupedData.

Lemma reduce_app_singletons {A} (l : list A) :
  reduce app ((fun r => [r]) <$> l) = match l with [] => None | _ => Some l end.
Proof.
  induction l as [|x l IH]; [done|]. csimpl. rewrite IH. by destruct l.
Qed.

(** The group of a key holds the rows with that key, in table order. *)
Lemma lookup_groups (data : list Joined) (k : Z * string) (l : list Joined) :
  groupby_reduce app (fun r => Some (group_key r)) (fun r => [r]) data !! k = Some l
  ↔ l = filter (fun r => group_key r = k) data ∧ l ≠ [].
Proof.
  rewrite lookup_groupby_reduce, reduce_app_singletons, filter_some_eq.
  destruct (filter _ data) as [|r rs]; split.
  - done.
  - by intros [-> ?].
  - by intros [= <-].
  - by intros [-> _].
Qed.

(** The rows of the roll-up: one per key that has rows. *)
Lemma elem_of_group_rows (data : list Joined) (row : Row) :
  row ∈ group_rows data
  ↔ ∃ k, filter (fun r => group_key r = k) data ≠ []
         ∧ row = aggregate k (filter (fun r => group_key r = k) data).
Proof.
  unfold group_rows. rewrite list_elem_of_fmap. split.
  - intros ([k l] & -> & Hin). rewrite merge_sort_Permutation in Hin.
    apply elem_of_map_to_list, lookup_groups in Hin as [-> Hne]. by exists k.
  - intros (k & Hne & ->). eexists (k, _). split; [done|].
    rewrite merge_sort_Permutation. by apply elem_of_map_to_list, lookup_groups.
Qed.

Lemma length_remove_dups_le {A} `{EqDecision A} (l : list A) :
  (length (remove_dups l) <= length l)%nat.
Proof.
  apply submseteq_length, NoDup_submseteq; [apply NoDup_remove_dups|].
  intros x. by rewrite elem_of_remove_dups.
Qed.

Lemma remove_dups_nonempty {A} `{EqDecision A} (l : list A) :
  l ≠ [] → remove_dups l ≠ [].
Proof.
  destruct l as [|x l]; [done|]. intros _ Hnil.
  assert (x ∈ remove_dups (x :: l)) as Hx by (apply elem_of_remove_dups; left).
  rewrite Hnil in Hx. by apply elem_of_nil in Hx.
Qed.

Lemma max_list_attained (l : list nat) : l ≠ [] → foldr Nat.max 0%nat l ∈ l.
Proof.
  induction l as [|x l IH]; [done|]. intros _. simpl.
  destruct l as [|y l]; [simpl; rewrite Nat.max_0_r; left|].
  destruct (Nat.max_spec x (foldr Nat.max 0%nat (y :: l))) as [[_ ->]|[_ ->]]; [|left].
  right. by apply IH.
Qed.

(** A column with a value has a mode. *)
Lemma mode_is_Some {A} `{EqDecision A} (R : relation A) `{!RelDecision R} (l : list A) :
  l ≠ [] → is_Some (mode R l).
Proof.
  intros Hne. unfold mode.
  set (values := merge_sort R (remove_dups l)).
  set (count := fun v => length (filter (fun x => x = v) l)).
  assert (values ≠ []) as Hv.
  { unfold values. intros Hnil. apply (remove_dups_nonempty l Hne).
    apply Permutation_nil_r. by rewrite <- (merge_sort_Permutation R), Hnil. }
  assert (count <$> values ≠ []) as Hc by (by destruct values).
  apply max_list_attained, list_elem_of_fmap in Hc as (v & Hbest & Hin).
  destruct (filter _ values) as [|w ws] eqn:Hf; [|by eexists].
  exfalso. apply (filter_nil_not_elem_of _ _ v Hf); [by symmetry | done].
Qed.
End GroupedDataFacts.

(** The invariants of a row of the roll-up of any joined table. *)
Lemma group_rows_invariants (data : list GroupedData.Joined) (row : GroupedData.Row) :
  row ∈ GroupedData.group_rows data →
  (1 <= GroupedData.transaction_count row)%nat
  ∧ (1 <= GroupedData.unique_customers row <= GroupedData.transaction_count row)%nat
  ∧ (1 <= GroupedData.unique_articles_sold row <= GroupedData.transaction_count row)%nat
  ∧ (GroupedData.fashion_news_subscribers row <= GroupedData.transaction_count row)%nat
  ∧ is_Some (GroupedData.avg_price row)
  ∧ GroupedData.sales_channel row ≠ GroupedData.Unknown
  ∧ is_Some (GroupedData.product_type_name row)
  ∧ is_Some (GroupedData.colour_group_name row)
  ∧ is_Some (GroupedData.graphical_appearance_name row).
Proof.
  intros (k & Hne & ->)%elem_of_group_rows. simpl.
  generalize dependent (filter (fun r => GroupedData.group_key r = k) data).
  intros rows Hne. destruct rows as [|r rs]; [done|].
  assert (∀ {A} `{EqDecision A} (f : GroupedData.Joined → A),
            (1 <= length (remove_dups (f <$> r :: rs)) <= length (r :: rs))%nat) as Hdups.
  { intros A ? f. split.
    - pose proof (remove_dups_nonempty (f <$> r :: rs) ltac:(by intros ?%fmap_nil_inv)).
      destruct (remove_dups _); [done | simpl; lia].
    - etrans; [apply length_remove_dups_le|]. by rewrite length_fmap. }
  split; [simpl; lia|]. split; [apply Hdups|]. split; [apply Hdups|].
  split; [apply length_filter|].
  split; [by rewrite mean_Some|].
  split.
  { unfold GroupedData.mode_or_unknown.
    destruct (mode_is_Some Z.le (GroupedData.channel <$> r :: rs) ltac:(by intros ?%fmap_nil_inv)) as [v ->].
    done. }
  simpl. eauto.
Qed.

Section GroupedDataMore.
Import GroupedData.

(** On every row of the elapsed-day table both values are present and
    ordered. *)
Lemma elapsed_rows_ordered (reference_date : Timestamp) (df : list Transaction)
    (r : Elapsed.Row) :
  r ∈ Elapsed.elapsed_rows reference_date df →
  ∃ l f, Elapsed.elapsed_days_since_last_purchase r = Some l
         ∧ Elapsed.elapsed_days_since_first_sell r = Some f ∧ l <= f.
Proof.
  intros (Hbase & M & m & -> & -> & _ & HM & _ & Hm)%elapsed_rows_meaning.
  eexists _, _. split; [done|]. split; [done|].
  apply days_between_mono. specialize (HM _ Hbase eq_refl). specialize (Hm _ Hbase eq_refl).
  lia.
Qed.

(** The rows of the joined table carry elapsed-day rows of the transactions. *)
Lemma joined_data_elapsed (customers : list Customers.Binned)
    (articles : list Articles.Article) (transactions : list (Elapsed.Row * Sale))
    (j : Joined) :
  j ∈ joined_data customers articles transactions →
  ∃ s, (elapsed j, s) ∈ transactions
       ∧ paid j = price s ∧ channel j = sales_channel_id s
       ∧ article j ∈ articles
       ∧ Articles.article_id (article j) = article_id (Elapsed.base (elapsed j)).
Proof.
  unfold joined_data, merge_left, merge_inner.
  intros (p & -> & Hin)%list_elem_of_fmap. destruct p as [[[e s] a] c]. simpl.
  apply list_elem_of_bind in Hin as (q & Hin & Hta). destruct q as [[e' s'] a'].
  assert ((e', s', a') = (e, s, a)) as Heq.
  { destruct (filter _ customers);
      [apply list_elem_of_singleton in Hin | apply list_elem_of_fmap in Hin as (? & Hin & _)];
      by simplify_eq. }
  simplify_eq.
  apply list_elem_of_bind in Hta as ([e' s'] & Hin' & Ht).
  apply list_elem_of_fmap in Hin' as (a' & Heq & [Ha Hart]%list_elem_of_filter).
  simplify_eq. eexists. split; [exact Ht|]. done.
Qed.

Lemma reduce_min_pointwise {A} (f g : A → option Z) (rows : list A) :
  rows ≠ [] →
  Forall (fun r => ∃ x y, f r = Some x ∧ g r = Some y ∧ x <= y) rows →
  ∃ a b, reduce Z.min (omap f rows) = Some a ∧ reduce Z.min (omap g rows) = Some b ∧ a <= b.
Proof.
  induction rows as [|r rows IH]; [done|]. intros _ Hall.
  apply Forall_cons_1 in Hall as [(x & y & Hx & Hy & Hxy) Hall].
  csimpl. rewrite Hx, Hy. simpl.
  destruct rows as [|r' rows].
  - csimpl. eexists _, _. split; [done|]. split; [done|]. done.
  - destruct (IH ltac:(done) Hall) as (a & b & -> & -> & Hab).
    eexists _, _. split; [done|]. split; [done|]. lia.
Qed.
End GroupedDataMore.

(** X19.  In the table [create_grouped_data] returns, every row stands for
    at least one transaction; the numbers of distinct customers and of
    distinct articles are between 1 and the transaction count, the number
    of fashion-news subscribers is at most the transaction count, and the
    average price, the sales channel and the three names are never missing
    or 'Unknown'. *)
Theorem create_grouped_data_invariants
    (today : Timestamp) (customers : list Customers.Customer)
    (articles : list Articles.Article) (transactions : list GroupedData.Sale)
    (out : list GroupedData.Row) (row : GroupedData.Row) :
  GroupedData.create_grouped_data today customers articles transactions = Some out →
  row ∈ out →
  (1 <= GroupedData.transaction_count row)%nat
  ∧ (1 <= GroupedData.unique_customers row <= GroupedData.transaction_count row)%nat
  ∧ (1 <= GroupedData.unique_articles_sold row <= GroupedData.transaction_count row)%nat
  ∧ (GroupedData.fashion_news_subscribers row <= GroupedData.transaction_count row)%nat
  ∧ is_Some (GroupedData.avg_price row)
  ∧ GroupedData.sales_channel row ≠ GroupedData.Unknown
  ∧ is_Some (GroupedData.product_type_name row)
  ∧ is_Some (GroupedData.colour_group_name row)
  ∧ is_Some (GroupedData.graphical_appearance_name row).
Proof.
  unfold GroupedData.create_grouped_data.
  destruct (Elapsed.calculate_elapsed_days _ _ _) as [result|]; [|done]. simpl.
  intros [= <-]. apply group_rows_invariants.
Qed.

(** X20.  On every row [create_grouped_data] returns, both day counts are
    present and [recent_purchase_days_ago] is at most
    [first_purchase_days_ago]. *)
Theorem create_grouped_data_recent_le_first
    (today : Timestamp) (customers : list Customers.Customer)
    (articles : list Articles.Article) (transactions : list GroupedData.Sale)
    (out : list GroupedData.Row) (row : GroupedData.Row) :
  GroupedData.create_grouped_data today customers articles transactions = Some out →
  row ∈ out →
  ∃ recent first,
    GroupedData.recent_purchase_days_ago row = Some recent
    ∧ GroupedData.first_purchase_days_ago row = Some first
    ∧ recent <= first.
Proof.
  unfold GroupedData.create_grouped_data. rewrite calculate_elapsed_days_unfold.
  destruct (convert_t_dat _) as [df|]; [|done]. simpl. intros [= <-].
  intros (k & Hne & ->)%elem_of_group_rows. simpl.
  apply reduce_min_pointwise; [done|].
  apply Forall_forall. intros j [_ Hj]%list_elem_of_filter.
  apply joined_data_elapsed in Hj as (s & Hin%elem_of_zip_l & _).
  by apply elapsed_rows_ordered in Hin.
Qed.

Section GroupedDataCounts.
Import GroupedData.

Lemma sum_list_indicator {K} `{EqDecision K} (keys : list K) (k0 : K) :
  NoDup keys → k0 ∈ keys →
  sum_list ((fun k => if decide (k0 = k) then 1%nat else 0%nat) <$> keys) = 1%nat.
Proof.
  induction 1 as [|k keys Hnotin Hnd IH]; [by intros ?%elem_of_nil|].
  intros Hin. csimpl. destruct (decide (k0 = k)) as [->|Hne].
  - assert (sum_list ((fun k' => if decide (k = k') then 1%nat else 0%nat) <$> keys) = 0%nat)
      as ->; [|done].
    clear IH Hin Hnd. induction keys as [|k' keys IH]; [done|]. csimpl.
    rewrite decide_False by (intros ->; apply Hnotin; left).
    rewrite IH; [done|]. intros Hk. apply Hnotin. by right.
  - apply elem_of_cons in Hin as [?|Hin]; [done|]. by rewrite IH.
Qed.

(** The sizes of the groups of a table add up to its length. *)
Lemma sum_partition {A K} `{EqDecision K} (key : A → K) (keys : list K) (data : list A) :
  NoDup keys → (∀ r, r ∈ data → key r ∈ keys) →
  sum_list ((fun k => length (filter (fun r => key r = k) data)) <$> keys) = length data.
Proof.
  intros Hnd. induction data as [|r data IH]; intros Hkeys.
  - clear Hnd Hkeys. induction keys as [|k keys IH]; [done|]. csimpl in *. by rewrite IH.
  - trans (sum_list ((fun k => if decide (key r = k) then 1%nat else 0%nat) <$> keys)
           + sum_list ((fun k => length (filter (fun r => key r = k) data)) <$> keys))%nat.
    + clear. induction keys as [|k keys IH]; [done|]. csimpl.
      rewrite filter_cons. destruct (decide (key r = k)); simpl; lia.
    + rewrite (sum_list_indicator keys (key r) Hnd) by (apply Hkeys; left).
      rewrite IH by (intros r' Hr'; apply Hkeys; by right). done.
Qed.

Lemma sum_list_group_rows (data : list Joined) :
  sum_list (transaction_count <$> group_rows data) = length data.
Proof.
  unfold group_rows. rewrite <- list_fmap_compose.
  rewrite merge_sort_Permutation.
  set (m := groupby_reduce app (fun r => Some (group_key r)) (fun r => [r]) data).
  rewrite <- (sum_partition group_key (map_to_list m).*1 data).
  - rewrite <- list_fmap_compose. f_equal. apply list_fmap_ext.
    intros _ [k l] Hin%list_elem_of_lookup_2. simpl.
    by apply elem_of_map_to_list, lookup_groups in Hin as [-> _].
  - apply NoDup_fst_map_to_list.
  - intros r Hr. apply list_elem_of_fmap.
    exists (group_key r, filter (fun r' => group_key r' = group_key r) data).
    split; [done|]. apply elem_of_map_to_list, lookup_groups. split; [done|].
    intros Hnil. by apply (filter_nil_not_elem_of _ _ r Hnil).
Qed.

Lemma group_rows_keys_NoDup (data : list Joined) :
  NoDup ((fun row => (date row, product_group row)) <$> group_rows data).
Proof.
  unfold group_rows. rewrite <- list_fmap_compose.
  rewrite (list_fmap_ext _ fst) by (by intros _ [[d g] l] _).
  rewrite merge_sort_Permutation. apply NoDup_fst_map_to_list.
Qed.
End GroupedDataCounts.

Section JoinCounts.
Import GroupedData.

(** With unique keys on the right, at most one right row matches a key. *)
Lemma filter_unique_key {K B} `{EqDecision K} (kr : B → K) (right : list B) (k : K) :
  NoDup (kr <$> right) →
  length (filter (fun b => kr b = k) right)
  = if decide (k ∈ kr <$> right) then 1%nat else 0%nat.
Proof.
  induction right as [|b right IH]; csimpl.
  - by intros _.
  - intros [Hnotin Hnd]%NoDup_cons. rewrite filter_cons.
    destruct (decide (kr b = k)) as [<-|Hne]; simpl; rewrite (IH Hnd).
    + rewrite decide_False by done. rewrite decide_True by left. done.
    + destruct (decide (k ∈ kr <$> right)) as [Hin|Hin].
      * rewrite decide_True by (by right). done.
      * rewrite decide_False; [done|]. by intros [?|?]%elem_of_cons.
Qed.

Lemma length_merge_left_unique {K A B} `{Countable K} (kl : A → K) (kr : B → K)
    (left : list A) (right : list B) :
  NoDup (kr <$> right) → length (merge_left kl kr left right) = length left.
Proof.
  intros Hnd. unfold merge_left. induction left as [|a left IH]; [done|].
  rewrite bind_cons, length_app, IH.
  pose proof (filter_unique_key kr right (kl a) Hnd) as Hlen.
  destruct (filter _ right) as [|b bs]; [done|].
  rewrite length_fmap, Hlen. by case_decide.
Qed.

Lemma length_merge_inner_unique {K A B} `{EqDecision K} (kl : A → K) (kr : B → K)
    (left : list A) (right : list B) :
  NoDup (kr <$> right) →
  length (merge_inner kl kr left right)
  = length (filter (fun a => kl a ∈ kr <$> right) left).
Proof.
  intros Hnd. unfold merge_inner. induction left as [|a left IH]; [done|].
  rewrite bind_cons, length_app, IH, length_fmap, filter_cons.
  rewrite (filter_unique_key kr right (kl a) Hnd).
  by destruct (decide (kl a ∈ kr <$> right)).
Qed.

Lemma length_filter_zip {A B} (P : A * B → Prop) (Q : B → Prop)
    `{∀ p, Decision (P p)} `{∀ y, Decision (Q y)} (l : list A) (k : list B) :
  Forall2 (fun x y => P (x, y) ↔ Q y) l k →
  length (filter P (zip l k)) = length (filter Q k).
Proof.
  induction 1 as [|x y l k Hxy _ IH]; [done|]. csimpl. rewrite !filter_cons.
  destruct (decide (P (x, y))), (decide (Q y)); simpl; try (by rewrite IH); tauto.
Qed.

(** Normalising and binning keep the customer keys. *)
Lemma customer_keys_kept (customers : list Customers.Customer) :
  (fun c => Customers.customer_id (Customers.cust c))
    <$> Customers.create_age_bins (Customers.handle_missing_values customers)
  = Customers.customer_id <$> customers.
Proof.
  unfold Customers.create_age_bins. rewrite handle_missing_values_rows. simpl.
  rewrite <- !list_fmap_compose. done.
Qed.

(** Each elapsed-day row belongs to the transaction at the same position. *)
Lemma elapsed_rows_articles (reference_date : Timestamp) (transactions : list Sale)
    (df : list Transaction) :
  convert_t_dat (sale <$> transactions) = Some df →
  Forall2 (fun e s => article_id (Elapsed.base e) = article_id (sale s))
    (Elapsed.elapsed_rows reference_date df) transactions.
Proof.
  intros Hconv%convert_t_dat_Some. unfold Elapsed.elapsed_rows.
  apply Forall2_fmap_l. apply Forall2_fmap_l in Hconv. apply Forall2_flip.
  eapply Forall2_impl; [exact Hconv|]. intros s r (t & _ & ->). done.
Qed.
End JoinCounts.

(** X21.  When the article keys and the customer keys are unique, the table
    [create_grouped_data] returns has one row per (date, product group) and
    its transaction counts add up to the number of transactions whose
    article is in the article table: transactions of unknown articles are
    dropped, transactions of unknown customers are counted. *)
Theorem create_grouped_data_counts
    (today : Timestamp) (customers : list Customers.Customer)
    (articles : list Articles.Article) (transactions : list GroupedData.Sale)
    (out : list GroupedData.Row) :
  NoDup (Articles.article_id <$> articles) →
  NoDup (Customers.customer_id <$> customers) →
  GroupedData.create_grouped_data today customers articles transactions = Some out →
  NoDup ((fun row => (GroupedData.date row, GroupedData.product_group row)) <$> out)
  ∧ sum_list (GroupedData.transaction_count <$> out)
    = length (filter (fun s => article_id (GroupedData.sale s)
                                 ∈ Articles.article_id <$> articles) transactions).
Proof.
  intros Harts Hcusts. unfold GroupedData.create_grouped_data.
  rewrite calculate_elapsed_days_unfold.
  destruct (convert_t_dat _) as [df|] eqn:Hconv; [|done]. simpl. intros [= <-].
  split; [apply group_rows_keys_NoDup|].
  rewrite sum_list_group_rows. unfold GroupedData.joined_data.
  rewrite length_fmap, length_merge_left_unique by (by rewrite customer_keys_kept).
  rewrite length_merge_inner_unique by done.
  apply length_filter_zip.
  eapply Forall2_impl; [by apply elapsed_rows_articles|].
  intros e s Heq. simpl in *. by rewrite Heq.
Qed.

(** ** The mode aggregates *)

Section ModeFacts.
Import GroupedData.
Context {A : Type} `{EqDecision A} (R : relation A) `{!RelDecision R}.
Context `{!Transitive R, !Total R}.

Lemma head_filter_split (P : A → Prop) `{∀ x, Decision (P x)} (l : list A) (v : A) :
  head (filter P l) = Some v →
  ∃ l1 l2, l = l1 ++ v :: l2 ∧ Forall (fun x => ¬ P x) l1 ∧ P v.
Proof.
  induction l as [|x l IH]; [done|]. rewrite filter_cons.
  destruct (decide (P x)) as [Hx|Hx]; simpl.
  - intros [= ->]. by exists [], l.
  - intros (l1 & l2 & -> & Hl1 & Hv)%IH. exists (x :: l1), l2.
    split; [done|]. split; [by constructor | done].
Qed.

Lemma max_list_ge (l : list nat) (n : nat) : n ∈ l → (n <= foldr Nat.max 0%nat l)%nat.
Proof.
  induction l as [|x l IH]; [by intros ?%elem_of_nil|].
  intros [->|Hn]%elem_of_cons; simpl; [lia|]. specialize (IH Hn). lia.
Qed.

(** The mode is a value of the column that no value outnumbers and that
    comes first among the values that occur as often. *)
Lemma mode_spec (l : list A) (v : A) :
  mode R l = Some v →
  v ∈ l
  ∧ (∀ w, length (filter (fun x => x = w) l) <= length (filter (fun x => x = v) l))%nat
  ∧ (∀ w, w ∈ l → length (filter (fun x => x = w) l) = length (filter (fun x => x = v) l)
          → R v w).
Proof.
  unfold mode.
  set (values := merge_sort R (remove_dups l)).
  set (count := fun v => length (filter (fun x => x = v) l)).
  intros (l1 & l2 & Hvalues & Hbefore & Hv)%head_filter_split.
  cbv beta in Hv.
  assert (∀ w, w ∈ values ↔ w ∈ l) as Hin.
  { intros w. unfold values. by rewrite merge_sort_Permutation, elem_of_remove_dups. }
  assert (StronglySorted R values) as Hsorted by (apply StronglySorted_merge_sort; apply _).
  assert (v ∈ l) as Hvl.
  { apply Hin. rewrite Hvalues. apply elem_of_app. right. left. }
  split; [done|]. split.
  - intros w. rewrite Hv.
    destruct (decide (w ∈ l)) as [Hw|Hw].
    + apply max_list_ge, list_elem_of_fmap. exists w. split; [done|]. by apply Hin.
    + destruct (filter (fun x => x = w) l) as [|x xs] eqn:Hf; [simpl; lia|].
      exfalso. apply Hw.
      assert (x ∈ filter (fun x => x = w) l) as Hx by (rewrite Hf; left).
      by apply list_elem_of_filter in Hx as [-> ?].
  - intros w Hw Hcount.
    apply Hin in Hw. rewrite Hvalues in Hw, Hsorted.
    apply elem_of_app in Hw as [Hw|Hw].
    + exfalso. rewrite Forall_forall in Hbefore. apply (Hbefore w Hw).
      cbv beta. by rewrite Hcount, Hv.
    + apply StronglySorted_app_1_r, StronglySorted_cons in Hsorted as [Hafter _].
      apply elem_of_cons in Hw as [->|Hw].
      * destruct (total R v v); done.
      * rewrite Forall_forall in Hafter. by apply Hafter.
Qed.
End ModeFacts.

(** X22.  The most frequent value the roll-up reports for a column is
    'Unknown' exactly when the column has no value; otherwise it is a value
    of the column that no other value outnumbers, and among the values that
    occur equally often it is the smallest. *)
Theorem mode_or_unknown_smallest_most_frequent (l : list Z) :
  match GroupedData.mode_or_unknown Z.le l with
  | GroupedData.Unknown => l = []
  | GroupedData.Known v =>
      v ∈ l
      ∧ (∀ w, length (filter (fun x => x = w) l) <= length (filter (fun x => x = v) l))%nat
      ∧ (∀ w, w ∈ l →
              length (filter (fun x => x = w) l) = length (filter (fun x => x = v) l) →
              v <= w)
  end.
Proof.
  unfold GroupedData.mode_or_unknown.
  destruct (GroupedData.mode Z.le l) as [v|] eqn:Hmode.
  - by apply (mode_spec Z.le).
  - destruct l as [|x l]; [done|].
    destruct (mode_is_Some Z.le (x :: l)) as [v Hv]; [done|]. congruence.
Qed.

(** ** process_name *)

Section ProcessNameFacts.
Import Names.
Variable unicode_word : N → bool.

Lemma kept_underscore : kept unicode_word underscore = true.
Proof. reflexivity. Qed.

Lemma space_not_kept : kept unicode_word space = false.
Proof. reflexivity. Qed.

(** The replacement of the spaces is subsumed by the substitution: a space
    is outside the kept class anyway. *)
Lemma process_name_one_pass (filename : list N) :
  process_name unicode_word filename = re_sub unicode_word filename.
Proof.
  unfold process_name, re_sub, replace_spaces. rewrite <- list_fmap_compose.
  apply list_fmap_ext. intros _ c _. simpl.
  destruct (N.eqb_spec c space) as [->|Hne]; [|done].
  by rewrite kept_underscore, space_not_kept.
Qed.
End ProcessNameFacts.

(** X23.  [process_name] keeps the length of the name, changes no letter,
    digit, underscore, hyphen or dot, turns every other character (spaces
    included) into an underscore, and so returns only characters of the
    kept class. *)
Theorem process_name_characters (unicode_word : N → bool) (filename : list N) :
  length (Names.process_name unicode_word filename) = length filename
  ∧ Forall (fun c => Names.kept unicode_word c = true)
      (Names.process_name unicode_word filename)
  ∧ Forall2 (fun c c' => c' = if Names.kept unicode_word c then c else Names.underscore)
      filename (Names.process_name unicode_word filename).
Proof.
  rewrite process_name_one_pass. unfold Names.re_sub.
  split; [by rewrite length_fmap|]. split.
  - rewrite Forall_fmap. apply Forall_forall. intros c _. simpl.
    destruct (Names.kept unicode_word c) eqn:Hc; [done | apply kept_underscore].
  - apply Forall2_fmap_r, Forall_Forall2_diag, Forall_forall. done.
Qed.

(** X24.  [process_name] is idempotent: a processed name is left unchanged. *)
Theorem process_name_idempotent (unicode_word : N → bool) (filename : list N) :
  Names.process_name unicode_word (Names.process_name unicode_word filename)
  = Names.process_name unicode_word filename.
Proof.
  rewrite !process_name_one_pass. unfold Names.re_sub. rewrite <- list_fmap_compose.
  apply list_fmap_ext. intros _ c _. simpl.
  destruct (Names.kept unicode_word c) eqn:Hc; [by rewrite Hc|].
  by rewrite kept_underscore.
Qed.

(** ** add_image_path_to_articles *)

Section ImageFacts.
Import Images.

Local Open Scope string_scope.

Lemma list_ascii_of_string_app (s1 s2 : string) :
  list_ascii_of_string (s1 ++ s2) = (list_ascii_of_string s1 ++ list_ascii_of_string s2)%list.
Proof. induction s1 as [|c s1 IH]; [done|]. simpl. by rewrite IH. Qed.

Lemma list_ascii_of_string_inj (s1 s2 : string) :
  list_ascii_of_string s1 = list_ascii_of_string s2 → s1 = s2.
Proof.
  intros Heq. rewrite <- (string_of_list_ascii_of_string s1),
    <- (string_of_list_ascii_of_string s2). by rewrite Heq.
Qed.

Lemma list_ascii_of_substring (s : string) :
  list_ascii_of_string (substring 0 3 s) = take 3 (list_ascii_of_string s).
Proof. destruct s as [|c1 [|c2 [|c3 s]]]; try done. simpl. by destruct s. Qed.

Lemma str_inj (n1 n2 : Z) : str n1 = str n2 → n1 = n2.
Proof.
  unfold str. intros Heq.
  assert (Some (Z.to_int n1) = Some (Z.to_int n2)) as [= Hint].
  { by rewrite <- !NilEmpty.isi, Heq. }
  by rewrite <- (DecimalZ.of_to n1), <- (DecimalZ.of_to n2), Hint.
Qed.

Definition slash : ascii := "/"%char.

Lemma string_of_uint_no_slash (d : Decimal.uint) :
  Forall (fun c => c ≠ slash) (list_ascii_of_string (NilEmpty.string_of_uint d)).
Proof. induction d; simpl; [constructor | constructor; [discriminate | done] ..]. Qed.

Lemma str_no_slash (n : Z) : Forall (fun c => c ≠ slash) (list_ascii_of_string (str n)).
Proof.
  unfold str. destruct (Z.to_int n) as [d|d]; simpl.
  - apply string_of_uint_no_slash.
  - constructor; [discriminate | apply string_of_uint_no_slash].
Qed.

Lemma str_nonempty (n : Z) : list_ascii_of_string (str n) ≠ [].
Proof.
  intros Hnil.
  assert (str n = "") as Hstr by (by apply list_ascii_of_string_inj).
  pose proof (NilEmpty.isi (Z.to_int n)) as Hisi. unfold str in Hstr.
  rewrite Hstr in Hisi. simpl in Hisi. injection Hisi as Hint.
  pose proof (DecimalZ.of_to n) as Hn. rewrite <- Hint in Hn. simpl in Hn. subst n.
  discriminate Hint.
Qed.

(** A path that ends in a character other than the slash. *)
Lemma ends_with_slash_app (a folder : string) :
  list_ascii_of_string folder ≠ [] →
  Forall (fun c => c ≠ slash) (list_ascii_of_string folder) →
  Hyper.ends_with_slash (a ++ folder) = false.
Proof.
  intros Hne Hchars. unfold Hyper.ends_with_slash. rewrite list_ascii_of_string_app.
  destruct (list_ascii_of_string folder) as [|c l _] using rev_ind; [done|].
  rewrite app_assoc, last_snoc.
  apply Forall_app in Hchars as [_ Hc]. rewrite Forall_singleton in Hc.
  apply Ascii.eqb_neq. exact Hc.
Qed.

(** The characters of the path tried for an article: a prefix that depends
    on the base directory only, the first three characters of the numeral,
    a slash, the numeral and the extension. *)
Lemma full_path_chars (image_base_path : string) (n : Z) :
  ∃ prefix,
    (∀ n', list_ascii_of_string
             (Hyper.path_join (Hyper.path_join image_base_path (substring 0 3 (str n')))
                (str n' ++ ".jpg"))
           = (prefix ++ take 3 (list_ascii_of_string (str n')) ++ slash
                :: list_ascii_of_string (str n') ++ list_ascii_of_string ".jpg")%list).
Proof.
  exists (list_ascii_of_string
            (if (String.eqb image_base_path "" || Hyper.ends_with_slash image_base_path)%bool
             then image_base_path else image_base_path ++ "/")).
  intros n'.
  assert (list_ascii_of_string (substring 0 3 (str n')) ≠ []) as Hne.
  { rewrite list_ascii_of_substring. pose proof (str_nonempty n').
    by destruct (list_ascii_of_string (str n')). }
  assert (Forall (fun c => c ≠ slash) (list_ascii_of_string (substring 0 3 (str n')))) as Hchars.
  { rewrite list_ascii_of_substring. apply Forall_take, str_no_slash. }
  set (folder := substring 0 3 (str n')) in *.
  assert (∃ a, Hyper.path_join image_base_path folder = a ++ folder
               ∧ a = (if (String.eqb image_base_path "" || Hyper.ends_with_slash image_base_path)%bool
                      then image_base_path else image_base_path ++ "/")) as (a & Hjoin & Ha).
  { unfold Hyper.path_join.
    destruct (String.eqb image_base_path "" || Hyper.ends_with_slash image_base_path)%bool;
      eexists; split; try done.
    apply list_ascii_of_string_inj. by rewrite !list_ascii_of_string_app, <- app_assoc. }
  rewrite <- Ha, Hjoin. unfold Hyper.path_join at 1.
  rewrite (ends_with_slash_app a folder Hne Hchars).
  assert (String.eqb (a ++ folder) "" = false) as ->.
  { apply String.eqb_neq. intros Hnil. apply Hne.
    apply (f_equal list_ascii_of_string) in Hnil. rewrite list_ascii_of_string_app in Hnil.
    simpl in Hnil. by apply app_eq_nil in Hnil as [_ ?]. }
  simpl orb. cbv iota.
  rewrite !list_ascii_of_string_app, <- !app_assoc. unfold folder.
  by rewrite list_ascii_of_substring.
Qed.
End ImageFacts.

(** X25.  [add_image_path_to_articles] keeps the articles in order; every
    path it stores exists, and no path is stored for two different article
    ids. *)
Theorem add_image_path_to_articles_distinct
    (path_exists : string → bool) (articles : list Articles.Article)
    (image_base_path : string) :
  Images.art <$> Images.add_image_path_to_articles path_exists articles image_base_path
  = articles
  ∧ (∀ r p, r ∈ Images.add_image_path_to_articles path_exists articles image_base_path →
            Images.image_path r = Some p → path_exists p = true)
  ∧ (∀ r1 r2 p,
        r1 ∈ Images.add_image_path_to_articles path_exists articles image_base_path →
        r2 ∈ Images.add_image_path_to_articles path_exists articles image_base_path →
        Images.image_path r1 = Some p → Images.image_path r2 = Some p →
        Articles.article_id (Images.art r1) = Articles.article_id (Images.art r2)).
Proof.
  unfold Images.add_image_path_to_articles. split; [|split].
  - rewrite <- list_fmap_compose. apply list_fmap_id.
  - intros r p (a & -> & _)%list_elem_of_fmap. simpl. unfold Images.get_image_path.
    destruct (path_exists _) eqn:Hex; [|done]. by intros [= <-].
  - intros r1 r2 p (a1 & -> & _)%list_elem_of_fmap (a2 & -> & _)%list_elem_of_fmap. simpl.
    unfold Images.get_image_path.
    destruct (path_exists _); [|done]. intros [= <-].
    destruct (path_exists _); [|done]. intros [= Heq].
    apply (f_equal list_ascii_of_string) in Heq.
    destruct (full_path_chars image_base_path 0) as [prefix Hpath].
    rewrite !Hpath in Heq. apply app_inv_head in Heq.
    set (S1 := list_ascii_of_string (Images.str (Articles.article_id a1))) in *.
    set (S2 := list_ascii_of_string (Images.str (Articles.article_id a2))) in *.
    assert (length S1 = length S2) as Hlen.
    { apply (f_equal length) in Heq. rewrite !length_app, !length_take in Heq.
      cbn [length] in Heq. rewrite !length_app in Heq. cbn [length] in Heq. lia. }
    apply app_inj_1 in Heq as [_ Heq]; [|rewrite !length_take; lia].
    injection Heq as Heq. apply app_inv_tail in Heq.
    apply str_inj, list_ascii_of_string_inj. by symmetry.
Qed.

(** ** Instances on a small data set *)

Lemma create_grouped_data_invariants_witness :
  ∃ row,
    (1 <= GroupedData.transaction_count row)%nat
    ∧ (1 <= GroupedData.unique_customers row <= GroupedData.transaction_count row)%nat
    ∧ (1 <= GroupedData.unique_articles_sold row <= GroupedData.transaction_count row)%nat
    ∧ (GroupedData.fashion_news_subscribers row <= GroupedData.transaction_count row)%nat
    ∧ is_Some (GroupedData.avg_price row)
    ∧ GroupedData.sales_channel row ≠ GroupedData.Unknown
    ∧ is_Some (GroupedData.product_type_name row)
    ∧ is_Some (GroupedData.colour_group_name row)
    ∧ is_Some (GroupedData.graphical_appearance_name row).
Proof.
  eexists.
  eapply (create_grouped_data_invariants GroupedData.sample_today
            GroupedData.sample_customers GroupedData.sample_articles
            GroupedData.sample_sales).
  - vm_compute. reflexivity.
  - left.
Defined.

Lemma create_grouped_data_recent_le_first_witness :
  ∃ row recent first,
    GroupedData.recent_purchase_days_ago row = Some recent
    ∧ GroupedData.first_purchase_days_ago row = Some first
    ∧ recent <= first.
Proof.
  eexists.
  eapply (create_grouped_data_recent_le_first GroupedData.sample_today
            GroupedData.sample_customers GroupedData.sample_articles
            GroupedData.sample_sales).
  - vm_compute. reflexivity.
  - left.
Defined.

Lemma create_grouped_data_counts_witness :
  ∃ out,
    GroupedData.create_grouped_data GroupedData.sample_today GroupedData.sample_customers
      GroupedData.sample_articles GroupedData.sample_sales = Some out
    ∧ sum_list (GroupedData.transaction_count <$> out) = 4%nat.
Proof.
  eexists. split; [vm_compute; reflexivity|].
  eapply eq_trans;
    [apply (create_grouped_data_counts GroupedData.sample_today GroupedData.sample_customers
              GroupedData.sample_articles GroupedData.sample_sales)|].
  - apply (bool_decide_unpack _). vm_compute. exact I.
  - apply (bool_decide_unpack _). vm_compute. exact I.
  - vm_compute. reflexivity.
  - vm_compute. reflexivity.
Defined.

Lemma add_image_path_to_articles_distinct_witness :
  let articles := [Articles.mkArticle 108775015 "Top" "Black" "Solid"] in
  let path_exists := fun p => String.eqb p "data/images/108/108775015.jpg" in
  Images.add_image_path_to_articles path_exists articles "data/images/"
  = [Images.mkRow (Articles.mkArticle 108775015 "Top" "Black" "Solid")
       (Some "data/images/108/108775015.jpg"%string)]
  ∧ path_exists "data/images/108/108775015.jpg"%string = true.
Proof.
  intros articles path_exists. split; [vm_compute; reflexivity|].
  apply (proj1 (proj2 (add_image_path_to_articles_distinct path_exists articles
                         "data/images/"))
           (Images.mkRow (Articles.mkArticle 108775015 "Top" "Black" "Solid")
              (Some "data/images/108/108775015.jpg"%string))).
  - vm_compute. left.
  - reflexivity.
Defined.
